(** * FramesGen: the frame-sequence builder and the image batch, verified

    A shallow embedding of [src/models.py], [src/llm_service.py],
    [src/image_service.py] and [src/main.py], and the properties of the
    parsing and reconciliation logic.

    Conventions of the embedding.
    - A Python [str] is a [string]; a character is read as the code point
      of the same number (0..255).  [int] is [Z].
    - Python exceptions are values of [exn]; a computation that can raise
      has type [result A]; code that talks to the outside world lives in
      the monad [M], a state monad over [World] layered on [result].
    - The two HTTP services, the image decoder, the file system and the
      clock are the fields of the class [Services]; every theorem holds
      for all of them.  What is printed is left out.
    - [int(...)] and [str(...)] convert without the interpreter's optional
      cap on the number of digits.
    - [LLMService] works on values (a list of frames is a [list] of
      records); [Store] gives [refine_frame_sequence] once more on
      objects with an identity, and is shown to compute the same frames. *)

From Stdlib Require Import ZArith Ascii String List Bool Lia DecimalString DecimalPos.
From stdpp Require Import base option list gmap strings.

Local Open Scope Z_scope.
Set Warnings "-register-all".
#[global] Arguments String.append !_ _ / : simpl nomatch.

(* ================================================================== *)
(** * Python strings *)
(* ================================================================== *)

Module PyStr.

Definition code (c : ascii) : nat := nat_of_ascii c.

Definition nl : ascii := ascii_of_nat 10.
Definition dquote : ascii := ascii_of_nat 34.
Definition str1 (c : ascii) : string := String c EmptyString.

(** [c.isspace()] on the code points below 256: TAB..CR, FS..US, space,
    NEL and NBSP. *)
Definition isspace (c : ascii) : bool :=
  let n := code c in
  ((9 <=? n) && (n <=? 13) || (28 <=? n) && (n <=? 32)
   || (n =? 133) || (n =? 160))%nat.

Definition isdecimal (c : ascii) : bool :=
  let n := code c in ((48 <=? n) && (n <=? 57))%nat.

Definition digit_value (c : ascii) : Z := Z.of_nat (code c) - 48.

(** [c.isalnum()] on the code points below 256. *)
Definition isalnum (c : ascii) : bool :=
  let n := code c in
  (isdecimal c
   || (65 <=? n) && (n <=? 90) || (97 <=? n) && (n <=? 122)
   || (n =? 170) || (n =? 178) || (n =? 179) || (n =? 181)
   || (n =? 185) || (n =? 186) || (188 <=? n) && (n <=? 190)
   || (192 <=? n) && (n <=? 214) || (216 <=? n) && (n <=? 246)
   || (248 <=? n) && (n <=? 255))%nat.

(** Truthiness of a [str]: non-empty. *)
Definition truthy (s : string) : bool :=
  match s with EmptyString => false | String _ _ => true end.

Fixpoint lstrip (s : string) : string :=
  match s with
  | EmptyString => EmptyString
  | String c s' => if isspace c then lstrip s' else s
  end.

Fixpoint rstrip (s : string) : string :=
  match s with
  | EmptyString => EmptyString
  | String c s' =>
      match rstrip s' with
      | EmptyString => if isspace c then EmptyString else str1 c
      | r => String c r
      end
  end.

(** [s.strip()] *)
Definition strip (s : string) : string := rstrip (lstrip s).

(** [s.startswith(p)] *)
Definition startswith (s p : string) : bool := String.prefix p s.

(** [c in s] for a one-character [c] *)
Fixpoint contains (c : ascii) (s : string) : bool :=
  match s with
  | EmptyString => false
  | String a s' => if Ascii.eqb a c then true else contains c s'
  end.

(** [s.split(sep)] for a one-character separator: never empty. *)
Fixpoint split (sep : ascii) (s : string) : list string :=
  match s with
  | EmptyString => [EmptyString]
  | String a s' =>
      if Ascii.eqb a sep then EmptyString :: split sep s'
      else match split sep s' with
           | h :: t => String a h :: t
           | [] => [str1 a]
           end
  end.

(** [s.partition(sep)] without the separator: the text before the first
    [sep] and the text after it, when there is one. *)
Fixpoint cut (sep : ascii) (s : string) : option (string * string) :=
  match s with
  | EmptyString => None
  | String a s' =>
      if Ascii.eqb a sep then Some (EmptyString, s')
      else match cut sep s' with
           | Some (pre, post) => Some (String a pre, post)
           | None => None
           end
  end.

(** [s.split(sep, 1)] *)
Definition split1 (sep : ascii) (s : string) : list string :=
  match cut sep s with
  | Some (pre, post) => [pre; post]
  | None => [s]
  end.

(** [l[-1]] on a list known to be non-empty; [d] stands for the
    [IndexError] that cannot happen after a [split]. *)
Definition last_item (l : list string) (d : string) : string := List.last l d.

(** [sep.join(l)] *)
Fixpoint join (sep : string) (l : list string) : string :=
  match l with
  | [] => EmptyString
  | [x] => x
  | x :: rest => x +:+ sep +:+ join sep rest
  end.

Fixpoint drop (n : nat) (s : string) : string :=
  match n, s with
  | O, _ => s
  | S _, EmptyString => EmptyString
  | S k, String _ s' => drop k s'
  end.

(** [s[:n]] *)
Fixpoint take (n : nat) (s : string) : string :=
  match n, s with
  | O, _ => EmptyString
  | S _, EmptyString => EmptyString
  | S k, String a s' => String a (take k s')
  end.

(** [s.replace(old, new)] for a non-empty [old]: occurrences are found
    left to right and do not overlap.  [skip] counts the characters of
    a match that are still to be passed over. *)
Fixpoint replace_from (old new : string) (skip : nat) (s : string) : string :=
  match s with
  | EmptyString => EmptyString
  | String a s' =>
      match skip with
      | S k => replace_from old new k s'
      | O =>
          if String.prefix old s
          then new +:+ replace_from old new (String.length old - 1) s'
          else String a (replace_from old new O s')
      end
  end.

(** With an empty [old], Python puts [new] before every character and
    at the end. *)
Fixpoint intersperse (new : string) (s : string) : string :=
  match s with
  | EmptyString => new
  | String a s' => new +:+ String a (intersperse new s')
  end.

Definition replace (s old new : string) : string :=
  match old with
  | EmptyString => intersperse new s
  | _ => replace_from old new O s
  end.

Definition map_chars (f : ascii -> ascii) : string -> string :=
  fix go s := match s with
              | EmptyString => EmptyString
              | String a s' => String (f a) (go s')
              end.

Definition digit_or_minus (c : ascii) : bool := isdecimal c || Ascii.eqb c "-".

(** Every character of [s] satisfies [P]. *)
Fixpoint all_chars (P : ascii -> bool) (s : string) : bool :=
  match s with
  | EmptyString => true
  | String a s' => P a && all_chars P s'
  end.

(** [str(n)] and [f"{n}"] for an [int] *)
Definition str_of_int (n : Z) : string := NilZero.string_of_int (Z.to_int n).

(** [f"{n:02d}"]: at least two characters, zero-filled after the sign. *)
Definition format_02d (n : Z) : string :=
  let s := str_of_int n in
  if (String.length s <? 2)%nat then String "0" s else s.

End PyStr.

(* ================================================================== *)
(** * Exceptions and results *)
(* ================================================================== *)

Inductive exn : Type :=
| ValueError (msg : string)
| AttributeError (msg : string)
| KeyError (msg : string)
| IndexError (msg : string)
| TypeError (msg : string)
| JSONDecodeError (msg : string)
| RequestException (msg : string)
| OSError (msg : string).

Inductive result (A : Type) : Type :=
| Ok (a : A)
| Raise (e : exn).
Arguments Ok {A} a.
Arguments Raise {A} e.

Definition is_ok {A} (r : result A) : bool :=
  match r with Ok _ => true | Raise _ => false end.

Module Res.
Definition bind {A B} (r : result A) (k : A -> result B) : result B :=
  match r with Ok a => k a | Raise e => Raise e end.
(** [try: body except: handler] (every exception of [exn] is an
    [Exception]) *)
Definition try_except {A} (body : result A) (handler : exn -> result A) : result A :=
  match body with Ok a => Ok a | Raise e => handler e end.
End Res.

Module PyInt.
Import PyStr.

(** The digits of a decimal literal, single underscores allowed between
    two digits. [prev_us] records that the previous character was an
    underscore. *)
Fixpoint digits (s : string) (prev_us : bool) (acc : Z) : option Z :=
  match s with
  | EmptyString => if prev_us then None else Some acc
  | String c s' =>
      if isdecimal c then digits s' false (10 * acc + digit_value c)
      else if Ascii.eqb c "_" then
             if prev_us then None else digits s' true acc
      else None
  end.

Definition unsigned (s : string) : option Z :=
  match s with
  | String c _ => if isdecimal c then digits s false 0 else None
  | EmptyString => None
  end.

Definition parse (s : string) : option Z :=
  match strip s with
  | String "+" r => unsigned r
  | String "-" r => Z.opp <$> unsigned r
  | t => unsigned t
  end.

(** [int(s)] for a [str] argument *)
Definition int (s : string) : result Z :=
  match parse s with
  | Some n => Ok n
  | None => Raise (ValueError "invalid literal for int() with base 10")
  end.
End PyInt.

(* ================================================================== *)
(** * [src/models.py] *)
(* ================================================================== *)

Record FrameDescription : Type := mkFrame {
  description : string;
  frame_number : Z
}.

Record StoryboardSequence : Type := mkStoryboard {
  prompt : string;
  frames : list FrameDescription;
  refined_frames : list FrameDescription
}.

(* ================================================================== *)
(** * The outside world *)
(* ================================================================== *)

(** What [response.json()] and a request body hold.  A float is kept as
    its literal: the program never computes with one.  A [JDict] lists
    the items of a [dict], one per key. *)
Inductive json : Type :=
| JNull
| JBool (b : bool)
| JInt (z : Z)
| JFloat (literal : string)
| JStr (s : string)
| JList (items : list json)
| JDict (items : list (string * json)).

Record Request : Type := mkRequest {
  url : string;
  headers : list (string * string);
  body : json
}.

(** A [requests.Response]: its status, its text, and what [.json()] gives
    (an exception when the text is not JSON). *)
Record Response : Type := mkResponse {
  status_code : Z;
  text : string;
  json_body : result json
}.

(** The collaborators of the program and its configuration
    ([src/config.py]).  [requests_post k] is the [k]-th external call made
    by the run, so that two calls need not answer alike. *)
Class Services : Type := {
  Image : Type;
  HF_API_TOKEN : string;
  MODEL_NAME : string;
  STABILITY_API_KEY : option string;
  getcwd : string;
  requests_post : nat -> Request -> result Response;
  (** [Image.open(io.BytesIO(base64.b64decode(s)))] *)
  image_open : string -> result Image;
  (** [image.save(path)] *)
  image_save : nat -> Image -> string -> result unit;
  (** [datetime.now().strftime("%Y%m%d_%H%M%S")] *)
  strftime_now : nat -> string
}.

(** Objects with an identity: a [FrameDescription] instance and a [list]
    of references. *)
Definition loc : Type := positive.

Inductive obj : Type :=
| OFrame (f : FrameDescription)
| OList (items : list loc).

(** The state a run threads: the number of external calls made so far,
    the seconds spent in [time.sleep], and the objects that exist. *)
Record World : Type := mkWorld {
  tick : nat;
  slept : nat;
  heap : gmap loc obj
}.

(** The world after one more external call. *)
Definition after_call (w : World) : World := mkWorld (S (tick w)) (slept w) (heap w).

Definition M (A : Type) : Type := World -> result A * World.

Module Mon.
Definition ret {A} (a : A) : M A := fun w => (Ok a, w).
Definition raise {A} (e : exn) : M A := fun w => (Raise e, w).
Definition bind {A B} (m : M A) (k : A -> M B) : M B :=
  fun w => match m w with
           | (Ok a, w') => k a w'
           | (Raise e, w') => (Raise e, w')
           end.
Definition lift {A} (r : result A) : M A := fun w => (r, w).
(** [try: body except Exception: handler] *)
Definition try_except {A} (body : M A) (handler : exn -> M A) : M A :=
  fun w => match body w with
           | (Ok a, w') => (Ok a, w')
           | (Raise e, w') => handler e w'
           end.
(** One call of a collaborator: it sees the current tick and the tick
    advances. *)
Definition external {A} (f : nat -> result A) : M A :=
  fun w => (f (tick w), after_call w).
Definition sleep (n : nat) : M unit :=
  fun w => (Ok tt, mkWorld (tick w) (slept w + n) (heap w)).

(** A constructor call: the new object gets an unused reference. *)
Definition alloc (o : obj) : M loc :=
  fun w => let l := fresh (dom (heap w)) in
           (Ok l, mkWorld (tick w) (slept w) (<[l := o]> (heap w))).
Definition get_list (l : loc) : M (list loc) :=
  fun w => match heap w !! l with
           | Some (OList items) => (Ok items, w)
           | _ => (Raise (TypeError "object is not a list"), w)
           end.
Definition get_frame (l : loc) : M FrameDescription :=
  fun w => match heap w !! l with
           | Some (OFrame f) => (Ok f, w)
           | _ => (Raise (AttributeError "object is not a FrameDescription"), w)
           end.
(** [l.append(x)] *)
Definition append (l x : loc) : M unit :=
  fun w => match heap w !! l with
           | Some (OList items) =>
               (Ok tt, mkWorld (tick w) (slept w) (<[l := OList (items ++ [x])]> (heap w)))
           | _ => (Raise (AttributeError "object has no attribute 'append'"), w)
           end.
End Mon.

Notation "'let*' x ':=' c 'in' k" := (Mon.bind c (fun x => k))
  (at level 10, x binder, c at level 100, k at level 200).
Notation "'let+' x ':=' c 'in' k" := (Res.bind c (fun x => k))
  (at level 10, x binder, c at level 100, k at level 200).

(** [for x in l: s = body(s, x)] *)
Fixpoint for_each {S A} (body : S -> A -> M S) (s : S) (l : list A) : M S :=
  match l with
  | [] => Mon.ret s
  | x :: rest => let* s' := body s x in for_each body s' rest
  end.

Fixpoint for_each_pure {S A} (body : S -> A -> result S) (s : S) (l : list A) : result S :=
  match l with
  | [] => Ok s
  | x :: rest => let+ s' := body s x in for_each_pure body s' rest
  end.

(** Operations of the interpreter on a decoded JSON value. *)
Module Py.
Import PyStr.

Fixpoint dict_lookup (key : string) (items : list (string * json)) : option json :=
  match items with
  | [] => None
  | (k, v) :: rest => if String.eqb k key then Some v else dict_lookup key rest
  end.

(** [s in t] for two strings *)
Fixpoint str_in (s t : string) : bool :=
  String.prefix s t ||
  match t with
  | EmptyString => false
  | String _ t' => str_in s t'
  end.

Definition is_str (key : string) (v : json) : bool :=
  match v with JStr s => String.eqb s key | _ => false end.

(** [key in v] *)
Definition contains (key : string) (v : json) : result bool :=
  match v with
  | JDict items => Ok (match dict_lookup key items with Some _ => true | None => false end)
  | JList l => Ok (existsb (is_str key) l)
  | JStr s => Ok (str_in key s)
  | _ => Raise (TypeError "argument is not iterable")
  end.

(** [v[key]] for a string key *)
Definition getitem (v : json) (key : string) : result json :=
  match v with
  | JDict items =>
      match dict_lookup key items with
      | Some x => Ok x
      | None => Raise (KeyError key)
      end
  | JList _ => Raise (TypeError "list indices must be integers or slices, not str")
  | JStr _ => Raise (TypeError "string indices must be integers")
  | _ => Raise (TypeError "object is not subscriptable")
  end.

(** [v[0]] *)
Definition first (v : json) : result json :=
  match v with
  | JList (x :: _) => Ok x
  | JList [] => Raise (IndexError "list index out of range")
  | JStr (String c _) => Ok (JStr (str1 c))
  | JStr EmptyString => Raise (IndexError "string index out of range")
  | JDict _ => Raise (KeyError "0")
  | _ => Raise (TypeError "object is not subscriptable")
  end.

(** [len(v)] *)
Definition len (v : json) : result nat :=
  match v with
  | JList l => Ok (length l)
  | JStr s => Ok (String.length s)
  | JDict items => Ok (length items)
  | _ => Raise (TypeError "object has no len()")
  end.

(** [v.get(key, default)]: only a [dict] has the method. *)
Definition get (v : json) (key : string) (dflt : json) : result json :=
  match v with
  | JDict items => Ok (default dflt (dict_lookup key items))
  | _ => Raise (AttributeError "object has no attribute 'get'")
  end.

(** [v.replace(old, new).strip()]: only a [str] has the methods. *)
Definition replace_strip (v : json) (old new : string) : result string :=
  match v with
  | JStr s => Ok (strip (replace s old new))
  | _ => Raise (AttributeError "object has no attribute 'replace'")
  end.
End Py.

(* ================================================================== *)
(** * [src/llm_service.py] *)
(* ================================================================== *)

Record Message : Type := mkMessage {
  role : string;
  content : string
}.

Module LLMService.
Import PyStr.

Definition NL : string := str1 nl.
Definition DQ : string := str1 dquote.

Section WithServices.
Context `{Services}.

Definition api_url : string :=
  "https://api-inference.huggingface.co/models/" +:+ MODEL_NAME.
Definition auth_headers : list (string * string) :=
  [("Authorization", "Bearer " +:+ HF_API_TOKEN)].

(** One turn of the loop of [_format_messages]. *)
Definition format_message (formatted_prompt : string) (message : Message) : string :=
  if String.eqb (role message) "system" then
    formatted_prompt +:+ "<s>[INST] " +:+ content message +:+ " [/INST]" +:+ NL +:+ NL
  else if String.eqb (role message) "user" then
    if truthy formatted_prompt
    then formatted_prompt +:+ content message +:+ " [/INST]" +:+ NL +:+ NL
    else formatted_prompt +:+ "<s>[INST] " +:+ content message +:+ " [/INST]" +:+ NL +:+ NL
  else if String.eqb (role message) "assistant" then
    formatted_prompt +:+ content message +:+ NL +:+ NL
  else formatted_prompt.

Definition _format_messages (messages : list Message) : string :=
  strip (fold_left format_message messages EmptyString).

Definition payload (inputs : string) : json :=
  JDict [("inputs", JStr inputs);
         ("parameters", JDict [("max_new_tokens", JInt 512);
                               ("temperature", JFloat "0.7");
                               ("do_sample", JBool true)])].

(** What [call_llm] makes of a response (lines 33-45). *)
Definition read_response (inputs : string) (response : Response) : result string :=
  if negb (status_code response =? 200) then
    Raise (ValueError ("Error from Hugging Face API: " +:+ text response))
  else
    let+ result := json_body response in
    match result with
    | JList (first :: _) =>
        let+ generated := Py.get first "generated_text" (JStr EmptyString) in
        Py.replace_strip generated inputs EmptyString
    | JDict _ =>
        let+ generated := Py.get result "generated_text" (JStr EmptyString) in
        Py.replace_strip generated inputs EmptyString
    | _ => Ok "Error: Unexpected response format"
    end.

(** The request of line 31. *)
Definition llm_request (messages : list Message) : Request :=
  mkRequest api_url auth_headers (payload (_format_messages messages)).

Definition call_llm (messages : list Message) : M string :=
  let inputs := _format_messages messages in
  let* response := Mon.external (fun k => requests_post k (llm_request messages)) in
  Mon.lift (read_response inputs response).

(** ** [generate_frame_sequence] *)

Definition generate_system_message (num_frames : Z) : string :=
  "You are a creative assistant that converts text prompts into a sequence "
  +:+ "of " +:+ str_of_int num_frames +:+ " detailed frame descriptions for a video storyboard. "
  +:+ "Each frame should progress the story logically, with clear visual elements. "
  +:+ "Focus on showing progression and change across the sequence.".

Definition generate_user_message (prompt : string) (num_frames : Z) : string :=
  "Convert this text into " +:+ str_of_int num_frames
  +:+ " sequential video frames: " +:+ DQ +:+ prompt +:+ DQ.

Definition generate_messages (prompt : string) (num_frames : Z) : list Message :=
  [mkMessage "system" (generate_system_message num_frames);
   mkMessage "user" (generate_user_message prompt num_frames)].

(** The test of line 93. *)
Definition accepts (line : string) (frame_num : Z) : bool :=
  truthy line &&
  (startswith line "Frame"
   || startswith line (str_of_int frame_num +:+ ".")
   || startswith line (str_of_int frame_num +:+ ":")).

(** Line 95, also the first branch of line 137. *)
Definition after_colon (line : string) : string :=
  strip (last_item (split1 ":" line) line).
Definition after_dot (line : string) : string :=
  strip (last_item (split1 "." line) line).

(** Lines 91-97: the state of the loop is [(frames, frame_num)]. *)
Definition draft_line (st : list FrameDescription * Z) (line : string)
  : result (list FrameDescription * Z) :=
  let '(frames, frame_num) := st in
  let line := strip line in
  if accepts line frame_num then
    let description :=
      if contains ":" line then after_colon line else after_dot line in
    Ok (frames ++ [mkFrame description frame_num], frame_num + 1)
  else Ok (frames, frame_num).

(** Lines 86-97, inside the [try]. *)
Definition parse_draft (response : string) : result (list FrameDescription) :=
  let lines := split nl (strip response) in
  let+ st := for_each_pure draft_line ([], 1) lines in
  Ok (fst st).

(** ** [generate_structured_frame_sequence] *)

Definition structured_system_message (num_frames : Z) : string :=
  "You are a creative assistant that converts text prompts into a sequence "
  +:+ "of " +:+ str_of_int num_frames +:+ " detailed frame descriptions for a video storyboard. "
  +:+ "Each frame should progress the story logically, with clear visual elements. "
  +:+ NL +:+ NL +:+ "You MUST format your response exactly as follows, with one frame per line:" +:+ NL
  +:+ "Frame 1: [description of first frame]" +:+ NL
  +:+ "Frame 2: [description of second frame]" +:+ NL
  +:+ "And so on...".

Definition structured_messages (prompt : string) (num_frames : Z) : list Message :=
  [mkMessage "system" (structured_system_message num_frames);
   mkMessage "user" (generate_user_message prompt num_frames)].

(** Lines 133-138: [i] is the index [enumerate] gives the line. *)
Definition structured_line (num_frames : Z) (frames : list FrameDescription)
    (i : nat) (line : string) : list FrameDescription :=
  let line := strip line in
  if truthy line && (Z.of_nat i <? num_frames) then
    let description := if contains ":" line then after_colon line else line in
    frames ++ [mkFrame description (Z.of_nat i + 1)]
  else frames.

Fixpoint structured_loop (num_frames : Z) (frames : list FrameDescription)
    (i : nat) (lines : list string) : list FrameDescription :=
  match lines with
  | [] => frames
  | line :: rest =>
      structured_loop num_frames (structured_line num_frames frames i line) (S i) rest
  end.

Definition placeholder (prompt : string) (frame_num : Z) : FrameDescription :=
  mkFrame ("Continuation of the scene from " +:+ prompt) frame_num.

(** Lines 141-146, the [while] loop; [fuel] bounds its turns. *)
Fixpoint pad_loop (fuel : nat) (prompt : string) (num_frames : Z)
    (frames : list FrameDescription) : list FrameDescription :=
  match fuel with
  | O => frames
  | S fuel' =>
      if Z.of_nat (length frames) <? num_frames then
        let frame_num := Z.of_nat (length frames) + 1 in
        pad_loop fuel' prompt num_frames (frames ++ [placeholder prompt frame_num])
      else frames
  end.

(** Lines 130-148.  The loop is given as many turns as frames are
    missing; [pad_loop_done] shows that it has then left the loop. *)
Definition parse_structured (prompt : string) (num_frames : Z) (response : string)
  : list FrameDescription :=
  let lines := split nl (strip response) in
  let frames := structured_loop num_frames [] 0 lines in
  pad_loop (Z.to_nat (num_frames - Z.of_nat (length frames))) prompt num_frames frames.

Definition generate_structured_frame_sequence (prompt : string) (num_frames : Z)
  : M (list FrameDescription) :=
  let* response := call_llm (structured_messages prompt num_frames) in
  Mon.ret (parse_structured prompt num_frames response).

Definition generate_frame_sequence (prompt : string) (num_frames : Z)
  : M (list FrameDescription) :=
  let* response := call_llm (generate_messages prompt num_frames) in
  match parse_draft response with
  | Raise _ => generate_structured_frame_sequence prompt num_frames
  | Ok frames =>
      if Z.of_nat (length frames) <? num_frames
      then generate_structured_frame_sequence prompt num_frames
      else Mon.ret frames
  end.

(** ** [refine_frame_sequence] *)

Definition render_frame (f : FrameDescription) : string :=
  "Frame " +:+ str_of_int (frame_number f) +:+ ": " +:+ description f.

(** Line 154 *)
Definition frames_text (frames : list FrameDescription) : string :=
  join NL (map render_frame frames).

Definition refine_system_message : string :=
  "You are a detail-oriented editor that refines video frame descriptions to ensure "
  +:+ "they maintain linguistic consistency, semantic coherence, and logical progression. "
  +:+ "Ensure each frame builds on the previous ones, uses consistent terminology, "
  +:+ "and creates a smooth visual narrative."
  +:+ NL +:+ NL +:+ "You MUST format your response exactly as follows, with one frame per line:" +:+ NL
  +:+ "Frame 1: [refined description of first frame]" +:+ NL
  +:+ "Frame 2: [refined description of second frame]" +:+ NL
  +:+ "And so on...".

Definition refine_user_message (frames_text prompt : string) : string :=
  "Refine these frame descriptions for the prompt: " +:+ DQ +:+ prompt +:+ DQ +:+ NL +:+ NL
  +:+ frames_text +:+ NL +:+ NL
  +:+ "Make sure the sequence flows naturally, maintains consistent terminology, "
  +:+ "and shows clear progression while preserving the original meaning of each frame.".

Definition refine_messages (frames_text prompt : string) : list Message :=
  [mkMessage "system" refine_system_message;
   mkMessage "user" (refine_user_message frames_text prompt)].

(** Lines 186-199: one turn of the parsing loop.  The [try] covers
    [int(...)], the only call that can raise; the handler is
    [continue]. *)
Definition refined_line (refined_frames : list FrameDescription) (line : string)
  : result (list FrameDescription) :=
  let line := strip line in
  if truthy line && startswith line "Frame" then
    match split1 ":" line with
    | [part0; part1] =>
        Res.try_except
          (let+ frame_num := PyInt.int (strip (replace part0 "Frame" EmptyString)) in
           let description := strip part1 in
           Ok (refined_frames ++ [mkFrame description frame_num]))
          (fun _ => Ok refined_frames)
    | _ => Ok refined_frames
    end
  else Ok refined_frames.

(** Lines 182-199 *)
Definition parse_refined (response : string) : result (list FrameDescription) :=
  for_each_pure refined_line [] (split nl (strip response)).

(** Line 204: a dict comprehension, later entries overwrite earlier ones. *)
Definition refined_map_of (refined_frames : list FrameDescription) : gmap Z string :=
  fold_left (fun m f => <[frame_number f := description f]> m) refined_frames ∅.

(** Lines 208-216: one turn of the reconciliation loop. *)
Definition reconcile_one (refined_map : gmap Z string)
    (result : list FrameDescription) (original : FrameDescription)
  : list FrameDescription :=
  match refined_map !! frame_number original with
  | Some d => result ++ [mkFrame d (frame_number original)]
  | None => result ++ [original]
  end.

(** Lines 202-220 *)
Definition reconcile (refined_frames frames : list FrameDescription)
  : list FrameDescription :=
  if negb (length refined_frames =? length frames)%nat then
    let refined_map := refined_map_of refined_frames in
    fold_left (reconcile_one refined_map) frames []
  else refined_frames.

Definition refine_frame_sequence (frames : list FrameDescription) (prompt : string)
  : M (list FrameDescription) :=
  let* response := call_llm (refine_messages (frames_text frames) prompt) in
  let* refined_frames := Mon.lift (parse_refined response) in
  Mon.ret (reconcile refined_frames frames).

End WithServices.
End LLMService.

(* ================================================================== *)
(** * [src/image_service.py] *)
(* ================================================================== *)

Module ImageGenerationService.
Import PyStr.

(** [os.path.join(a, b)] (POSIX) *)
Definition path_join (a b : string) : string :=
  if startswith b "/" then b
  else if negb (truthy a) then b
  else if String.eqb (drop (String.length a - 1) a) "/" then a +:+ b
  else a +:+ "/" +:+ b.

Section WithServices.
Context `{Services}.

Definition api_host : string := "https://api.stability.ai".
Definition engine_id : string := "stable-diffusion-xl-1024-v1-0".
Definition output_dir : string := path_join getcwd "generated_frames".

(** [not self.api_key] is true for [None] and for the empty key. *)
Definition usable_key : option string :=
  match STABILITY_API_KEY with
  | Some k => if truthy k then Some k else None
  | None => None
  end.

Definition image_headers (key : string) : list (string * string) :=
  [("Accept", "application/json");
   ("Content-Type", "application/json");
   ("Authorization", "Bearer " +:+ key)].

Definition text_prompt (t weight : string) : json :=
  JDict [("text", JStr t); ("weight", JFloat weight)].

Definition image_body (prompt : string) (negative_prompt : option string) : json :=
  let negative :=
    match negative_prompt with
    | Some n => if truthy n then [text_prompt n "-1.0"] else []
    | None => []
    end in
  JDict [("text_prompts", JList (text_prompt prompt "1.0" :: negative));
         ("cfg_scale", JFloat "7.0");
         ("height", JInt 1024);
         ("width", JInt 1024);
         ("samples", JInt 1);
         ("steps", JInt 30)].

(** [Image.open(io.BytesIO(base64.b64decode(v)))] *)
Definition decode_image (v : json) : result Image :=
  match v with
  | JStr s => image_open s
  | _ => Raise (TypeError "argument should be a bytes-like object or ASCII string")
  end.

(** Lines 73-83, what the [try] block makes of a response. *)
Definition read_image (response : Response) : result (option Image) :=
  if negb (status_code response =? 200) then Ok None
  else
    let+ data := json_body response in
    let+ has := Py.contains "artifacts" data in
    let+ nonempty :=
      if has then
        let+ artifacts := Py.getitem data "artifacts" in
        let+ n := Py.len artifacts in
        Ok (0 <? n)%nat
      else Ok false in
    if nonempty then
      let+ artifacts := Py.getitem data "artifacts" in
      let+ artifact := Py.first artifacts in
      let+ encoded := Py.getitem artifact "base64" in
      let+ image := decode_image encoded in
      Ok (Some image)
    else Ok None.

(** The request of line 71. *)
Definition image_request (key prompt : string) (negative_prompt : option string) : Request :=
  let url := api_host +:+ "/v1/generation/" +:+ engine_id +:+ "/text-to-image" in
  mkRequest url (image_headers key) (image_body prompt negative_prompt).

Definition generate_image (prompt : string) (negative_prompt : option string)
  : M (option Image) :=
  match usable_key with
  | None => Mon.ret None
  | Some key =>
      Mon.try_except
        (let* response :=
           Mon.external (fun k =>
             requests_post k (image_request key prompt negative_prompt)) in
         Mon.lift (read_image response))
        (fun _ => Mon.ret None)
  end.

Definition clean_char (c : ascii) : ascii :=
  if isalnum c || Ascii.eqb c " " || Ascii.eqb c "-" || Ascii.eqb c "_"
  then c else "_"%char.

(** An [Image] is always truthy, so [save_image] passes its guard and
    returns a path or raises what [image.save] raises. *)
Definition save_image (image : Image) (filename : string) : M string :=
  let clean_filename := map_chars clean_char filename in
  let* timestamp := Mon.external (fun k => Ok (strftime_now k)) in
  let full_filename := timestamp +:+ "_" +:+ clean_filename +:+ ".png" in
  let file_path := path_join output_dir full_filename in
  let* _ := Mon.external (fun k => image_save k image file_path) in
  Mon.ret file_path.

Definition frame_filename (frame : FrameDescription) : string :=
  "frame_" +:+ format_02d (frame_number frame) +:+ "_"
  +:+ replace (take 30 (description frame)) " " "_".

(** Lines 130-149: one turn of the batch loop over [enumerate(frames)];
    [total] is [len(frames)].  The prints are left out. *)
Definition frame_image (style_prompt negative_prompt : string) (total : nat)
    (st : list string * nat) (frame : FrameDescription) : M (list string * nat) :=
  let '(image_paths, i) := st in
  let full_prompt := description frame +:+ ". " +:+ style_prompt in
  let* image := generate_image full_prompt (Some negative_prompt) in
  let* image_paths :=
    match image with
    | Some img =>
        let* image_path := save_image img (frame_filename frame) in
        if truthy image_path then Mon.ret (image_paths ++ [image_path])
        else Mon.ret image_paths
    | None => Mon.ret image_paths
    end in
  let* _ := if (Z.of_nat i <? Z.of_nat total - 1)
            then Mon.sleep 1 else Mon.ret tt in
  Mon.ret (image_paths, S i).

Definition generate_frame_images (frames : list FrameDescription)
    (style_prompt negative_prompt : string) : M (list string) :=
  let* st := for_each (frame_image style_prompt negative_prompt (length frames))
                      ([], O) frames in
  Mon.ret (fst st).

End WithServices.
End ImageGenerationService.

(* ================================================================== *)
(** * [src/main.py] *)
(* ================================================================== *)

Module Main.
Section WithServices.
Context `{Services}.

Definition process_prompt (prompt : string) (num_frames : Z) : M StoryboardSequence :=
  let* frames := LLMService.generate_frame_sequence prompt num_frames in
  let* refined_frames := LLMService.refine_frame_sequence frames prompt in
  Mon.ret (mkStoryboard prompt frames refined_frames).

Definition generate_images_for_storyboard (storyboard : StoryboardSequence)
    (style_prompt negative_prompt : string) : M (list string) :=
  ImageGenerationService.generate_frame_images
    (refined_frames storyboard) style_prompt negative_prompt.

End WithServices.
End Main.

(* ================================================================== *)
(** * [refine_frame_sequence] on objects *)
(* ================================================================== *)

(** The same method with the identity of every list and every
    [FrameDescription] made explicit: [frames] is a reference to a list
    of references, [FrameDescription(...)] and [[]] allocate, [append]
    updates a list in place, and the method returns a reference. *)
Module Store.
Import PyStr LLMService.

Section WithServices.
Context `{Services}.

(** [[g(f) for f in l]] *)
Definition read_all {A} (g : FrameDescription -> A) (l : loc) : M (list A) :=
  let* items := Mon.get_list l in
  for_each (fun acc x => let* f := Mon.get_frame x in Mon.ret (acc ++ [g f])) [] items.

(** [len(l)] *)
Definition len (l : loc) : M nat :=
  let* items := Mon.get_list l in Mon.ret (length items).

(** Lines 186-199 *)
Definition refined_line (refined_frames : loc) (_ : unit) (line : string) : M unit :=
  let line := strip line in
  if truthy line && startswith line "Frame" then
    match split1 ":" line with
    | [part0; part1] =>
        Mon.try_except
          (let* frame_num :=
             Mon.lift (PyInt.int (strip (replace part0 "Frame" EmptyString))) in
           let description := strip part1 in
           let* fresh_frame := Mon.alloc (OFrame (mkFrame description frame_num)) in
           Mon.append refined_frames fresh_frame)
          (fun _ => Mon.ret tt)
    | _ => Mon.ret tt
    end
  else Mon.ret tt.

(** Lines 209-216 *)
Definition reconcile_one (refined_map : gmap Z string) (result : loc)
    (_ : unit) (original : loc) : M unit :=
  let* f := Mon.get_frame original in
  match refined_map !! frame_number f with
  | Some d =>
      let* fresh_frame := Mon.alloc (OFrame (mkFrame d (frame_number f))) in
      Mon.append result fresh_frame
  | None => Mon.append result original
  end.

(** Lines 182-220: what the method does with the reply. *)
Definition read_reply (frames : loc) (response : string) : M loc :=
  let* refined_frames := Mon.alloc (OList []) in
  let* _ := for_each (refined_line refined_frames) tt (split nl (strip response)) in
  let* n_refined := len refined_frames in
  let* n := len frames in
  if negb (n_refined =? n)%nat then
    let* parsed := read_all (fun f => f) refined_frames in
    let refined_map := refined_map_of parsed in
    let* result := Mon.alloc (OList []) in
    let* originals := Mon.get_list frames in
    let* _ := for_each (reconcile_one refined_map result) tt originals in
    Mon.ret result
  else Mon.ret refined_frames.

Definition refine_frame_sequence (frames : loc) (prompt : string) : M loc :=
  let* rendered := read_all render_frame frames in
  let frames_text := join NL rendered in
  let* response := call_llm (refine_messages frames_text prompt) in
  read_reply frames response.

End WithServices.

(** The references [items] stand for the frames [fs] in the heap [h]. *)
Definition holds (h : gmap loc obj) (items : list loc) (fs : list FrameDescription) : Prop :=
  Forall2 (fun x f => h !! x = Some (OFrame f)) items fs.

(** [l] is a list object whose items stand for [fs]. *)
Definition is_frames (h : gmap loc obj) (l : loc) (fs : list FrameDescription) : Prop :=
  exists items, h !! l = Some (OList items) /\ holds h items fs.

(** Every object of [h] other than [l] is in [h'] as it was. *)
Definition agree_off (l : loc) (h h' : gmap loc obj) : Prop :=
  forall x, x <> l -> forall o, h !! x = Some o -> h' !! x = Some o.

End Store.

(* ================================================================== *)
(** * Concrete services and inputs used by the examples *)
(* ================================================================== *)

Module Demo.
Import PyStr LLMService.

Definition ok_response (generated : string) : Response :=
  mkResponse 200 generated (Ok (JList [JDict [("generated_text", JStr generated)]])).

Definition image_response (encoded : string) : Response :=
  mkResponse 200 EmptyString
    (Ok (JDict [("artifacts", JList [JDict [("base64", JStr encoded)]])])).

Definition lines (l : list string) : string := join NL l.

(** Services whose [k]-th call answers with [replies k]; images are
    their encoded text, saving works, the key is [key]. *)
Definition scripted (key : option string) (replies : nat -> result Response) : Services :=
  {| Image := string;
     HF_API_TOKEN := "hf_token";
     MODEL_NAME := "mistralai/Mistral-7B-Instruct-v0.2";
     STABILITY_API_KEY := key;
     getcwd := "/work";
     requests_post := fun k _ => replies k;
     image_open := fun s => Ok s;
     image_save := fun _ _ _ => Ok tt;
     strftime_now := fun _ => "20240101_000000" |}.

(** Every call of the text service answers [generated]. *)
Definition echo (generated : string) : Services :=
  scripted None (fun _ => Ok (ok_response generated)).

(** The first call answers [first], every later one [second]. *)
Definition two_replies (first second : string) : Services :=
  scripted None (fun k => match k with
                          | O => Ok (ok_response first)
                          | S _ => Ok (ok_response second)
                          end).

(** An image service with a key whose fourth external call, the request
    for the second frame of a batch, is refused. *)
Definition flaky_images : Services :=
  scripted (Some "sk-key")
    (fun k => match k with
              | 3%nat => Ok (mkResponse 401 "unauthorized" (Raise (JSONDecodeError "no JSON")))
              | _ => Ok (image_response "aGVsbG8=")
              end).

Definition five_frames : list FrameDescription :=
  [mkFrame "one" 1; mkFrame "two" 2; mkFrame "three" 3; mkFrame "four" 4; mkFrame "five" 5].

(** A text service that answers with status 200 and the JSON body [[5]]. *)
Definition odd_shape : Services :=
  scripted None (fun _ => Ok (mkResponse 200 "[5]" (Ok (JList [JInt 5])))).

Definition w0 : World := mkWorld 0 0 ∅.


(** A heap that holds the list [[#1, #2, #3]] at reference 4, the three
    references standing for the frames numbered 1, 3, 5 below. *)
Definition heap_135 : gmap loc obj :=
  <[4%positive := OList [1%positive; 2%positive; 3%positive]]>
    (<[3%positive := OFrame (mkFrame "the cat leaves" 5)]>
       (<[2%positive := OFrame (mkFrame "the cat wakes" 3)]>
          (<[1%positive := OFrame (mkFrame "a cat sleeps" 1)]> ∅))).

Definition frames_135 : list FrameDescription :=
  [mkFrame "a cat sleeps" 1; mkFrame "the cat wakes" 3; mkFrame "the cat leaves" 5].
End Demo.

(* ================================================================== *)
(** * The vocabulary of the specification *)
(* ================================================================== *)

Module Spec.
Import PyStr LLMService.

(** A run that ends in an exception. *)
Definition raises {A} (m : M A) (w : World) : Prop :=
  exists e w', m w = (Raise e, w').


(** The segment of a line before its first [sep], the whole line when
    there is none. *)
Definition segment_before (sep : ascii) (s : string) : string :=
  match cut sep s with Some (pre, _) => pre | None => s end.

Definition segment_after (sep : ascii) (s : string) : string :=
  match cut sep s with Some (_, post) => post | None => s end.

(** What is left of the segment before the colon once the word [Frame]
    is taken out of it. *)
Definition number_text (line : string) : string :=
  strip (replace (segment_before ":" (strip line)) "Frame" EmptyString).

(** A line of the refine reply qualifies: it starts with the word
    [Frame], holds a colon, and what precedes the colon reads as an
    integer once the word is taken out. *)
Definition qualifies (line : string) : Prop :=
  startswith (strip line) "Frame" = true
  /\ contains ":" (strip line) = true
  /\ is_Some (PyInt.parse (number_text line)).

(** The frame a qualifying line stands for: the integer before the colon
    and the trimmed text after it. *)
Definition parsed_frame (line : string) : option FrameDescription :=
  if startswith (strip line) "Frame" && contains ":" (strip line) then
    match PyInt.parse (number_text line) with
    | Some n => Some (mkFrame (strip (segment_after ":" (strip line))) n)
    | None => None
    end
  else None.

(** The body of a response that [call_llm] reads without raising: a
    non-empty list whose first item is an object, or an object, with a
    string (or nothing) under [generated_text]; or any other JSON value
    than those two. *)
Definition text_or_absent (items : list (string * json)) : bool :=
  match Py.dict_lookup "generated_text" items with
  | Some (JStr _) | None => true
  | Some _ => false
  end.

Definition readable (body : result json) : bool :=
  match body with
  | Ok (JList (JDict items :: _)) => text_or_absent items
  | Ok (JList (_ :: _)) => false
  | Ok (JDict items) => text_or_absent items
  | Ok _ => true
  | Raise _ => false
  end.


(** The description given to [n] by the last of the parsed frames that
    carries the number [n]. *)
Definition last_occurrence (n : Z) (parsed : list FrameDescription) : option string :=
  description <$> List.find (fun f => frame_number f =? n) (rev parsed).

(** What reconciliation puts in the place of [original]. *)
Definition reconciled (parsed : list FrameDescription) (original : FrameDescription)
  : FrameDescription :=
  match last_occurrence (frame_number original) parsed with
  | Some d => mkFrame d (frame_number original)
  | None => original
  end.

(** A frame renders as one line of the strict format and reads back as
    itself: its description is trimmed and holds no line break. *)
Definition well_formatted_frame (f : FrameDescription) : bool :=
  String.eqb (strip (description f)) (description f)
  && negb (contains nl (description f)).

Definition well_formatted (frames : list FrameDescription) : bool :=
  forallb well_formatted_frame frames.

(** The frame numbers [1..n] in ascending order. *)
Definition one_to (n : nat) : list Z := map (fun i => Z.of_nat i + 1) (seq 0 n).

(** No blank line among the first [n] lines. *)
Definition no_blank_in_first (n : nat) (lines : list string) : bool :=
  forallb (fun line => truthy (strip line)) (firstn n lines).
End Spec.

(** More vocabulary, for further properties of the code. *)
Module Notions.
Import PyStr LLMService.

(** The placeholders numbered [first+1 .. first+count]. *)
Definition placeholders (prompt : string) (first count : nat) : list FrameDescription :=
  map (fun i => placeholder prompt (Z.of_nat i + 1)) (seq first count).

(** A role [_format_messages] has a case for. *)
Definition known_role (m : Message) : bool :=
  String.eqb (role m) "system" || String.eqb (role m) "user"
  || String.eqb (role m) "assistant".

(** A prompt whose placeholder description is trimmed and on one line. *)
Definition plain_prompt (prompt : string) : bool :=
  truthy prompt && String.eqb (rstrip prompt) prompt && negb (contains nl prompt).

(** The characters [save_image] lets through. *)
Definition allowed_in_filename (c : ascii) : bool :=
  isalnum c || Ascii.eqb c " " || Ascii.eqb c "-" || Ascii.eqb c "_".

(** The encoded image of a response the image service can use: status
    200 and a JSON object whose [artifacts] is a list that starts with an
    object holding a string under [base64]. *)
Definition first_artifact (response : Response) : option string :=
  if status_code response =? 200 then
    match json_body response with
    | Ok (JDict items) =>
        match Py.dict_lookup "artifacts" items with
        | Some (JList (JDict artifact :: _)) =>
            match Py.dict_lookup "base64" artifact with
            | Some (JStr encoded) => Some encoded
            | _ => None
            end
        | _ => None
        end
    | _ => None
    end
  else None.

(** The frames [fs] with their descriptions and the numbers
    [first+1, first+2, ...] of their positions. *)
Fixpoint renumber (first : nat) (fs : list FrameDescription) : list FrameDescription :=
  match fs with
  | [] => []
  | f :: rest => mkFrame (description f) (Z.of_nat first + 1) :: renumber (S first) rest
  end.

(** The number of seconds the batch over [n] frames pauses. *)
Definition pauses (n : nat) : nat := (n - 1)%nat.

(** The frame the structured pass takes from the line at position [i] of
    the reply: none from a blank line, otherwise the trimmed text after
    the first colon (the whole trimmed line when it has no colon) under
    the number [i + 1]. *)
Definition line_frame (i : nat) (line : string) : option FrameDescription :=
  if truthy (strip line) then
    Some (mkFrame (if contains ":" (strip line)
                   then strip (Spec.segment_after ":" (strip line))
                   else strip line)
                  (Z.of_nat i + 1))
  else None.

(** The frames the structured pass takes from the lines of a reply: those
    of the lines that are not blank among the first [num_frames] lines. *)
Definition taken_frames (num_frames : Z) (lines : list string) : list FrameDescription :=
  omap id (imap line_frame (firstn (Z.to_nat num_frames) lines)).
End Notions.

(** The batch of images as the specification tells it. *)
Module Batch.
Import PyStr ImageGenerationService Notions.
Section WithServices.
Context `{Services}.




End WithServices.
End Batch.

(** More concrete services, for the examples of those properties. *)
Module Samples.
Import PyStr LLMService.

(** A text service that answers with the prompt it was sent followed by
    [completion], as text-generation endpoints do. *)
Definition parrot (completion : string) : Services :=
  {| Image := string;
     HF_API_TOKEN := "hf_token";
     MODEL_NAME := "mistralai/Mistral-7B-Instruct-v0.2";
     STABILITY_API_KEY := None;
     getcwd := "/work";
     requests_post := fun _ request =>
       match body request with
       | JDict (("inputs", JStr inputs) :: _) =>
           Ok (Demo.ok_response (inputs +:+ completion))
       | _ => Raise (RequestException "no inputs")
       end;
     image_open := fun s => Ok s;
     image_save := fun _ _ _ => Ok tt;
     strftime_now := fun _ => "20240101_000000" |}.

(** An image service that always delivers an image; saving works. *)
Definition all_images : Services :=
  Demo.scripted (Some "sk-key") (fun _ => Ok (Demo.image_response "aGVsbG8=")).

(** The same image service on a full disk: saving fails. *)
Definition full_disk : Services :=
  {| Image := string;
     HF_API_TOKEN := "hf_token";
     MODEL_NAME := "mistralai/Mistral-7B-Instruct-v0.2";
     STABILITY_API_KEY := Some "sk-key";
     getcwd := "/work";
     requests_post := fun _ _ => Ok (Demo.image_response "aGVsbG8=");
     image_open := fun s => Ok s;
     image_save := fun _ _ _ => Raise (OSError "No space left on device");
     strftime_now := fun _ => "20240101_000000" |}.

(** A text service that is down. *)
Definition unreachable : Services :=
  Demo.scripted None (fun _ => Raise (RequestException "connection refused")).

(** A text service whose first answer is [first] and which is down
    afterwards. *)
Definition once (first : string) : Services :=
  Demo.scripted None (fun k => match k with
                               | O => Ok (Demo.ok_response first)
                               | S _ => Raise (RequestException "connection refused")
                               end).
End Samples.

(* ================================================================== *)
(** * Running the monads *)
(* ================================================================== *)

Section MonadLaws.
Context {A B : Type}.

Lemma bind_ok (m : M A) (k : A -> M B) w a w' :
  m w = (Ok a, w') -> Mon.bind m k w = k a w'.
Proof. unfold Mon.bind. now intros ->. Qed.

Lemma bind_ret (a : A) (k : A -> M B) w : Mon.bind (Mon.ret a) k w = k a w.
Proof. reflexivity. Qed.

End MonadLaws.

Lemma for_each_pure_total {S A} (body : S -> A -> result S) (f : S -> A -> S) :
  (forall s x, body s x = Ok (f s x)) ->
  forall l s, for_each_pure body s l = Ok (fold_left f l s).
Proof.
  intros Hbody l. induction l as [|x l IH]; intros s; simpl; [reflexivity|].
  rewrite Hbody. simpl. apply IH.
Qed.

Lemma for_each_app {S A} (body : S -> A -> M S) l1 l2 (s : S) w :
  for_each body s (l1 ++ l2) w =
  Mon.bind (for_each body s l1) (fun s' => for_each body s' l2) w.
Proof.
  revert s w. induction l1 as [|x l1 IH]; intros s w; simpl; [reflexivity|].
  unfold Mon.bind at 1 2 3. fold (@for_each S A body).
  destruct (body s x w) as [[s'|e] w']; [|reflexivity].
  rewrite IH. reflexivity.
Qed.

(* ================================================================== *)
(** * Facts about the string primitives *)
(* ================================================================== *)

Section StringFacts.
Import PyStr.

Lemma append_assoc (a b c : string) : (a +:+ b) +:+ c = a +:+ (b +:+ c).
Proof. induction a; simpl; congruence. Qed.

Lemma cut_contains (c : ascii) (s : string) :
  contains c s = match cut c s with Some _ => true | None => false end.
Proof.
  induction s as [|a s IH]; simpl; [reflexivity|].
  destruct (Ascii.eqb a c); [reflexivity|].
  rewrite IH. now destruct (cut c s) as [[pre post]|].
Qed.

Lemma startswith_truthy (s p : string) :
  truthy p = true -> startswith s p = true -> truthy s = true.
Proof. destruct p; [discriminate|]. destruct s; [discriminate | reflexivity]. Qed.

Lemma contains_app (c : ascii) (a b : string) :
  contains c (a +:+ b) = contains c a || contains c b.
Proof.
  induction a as [|x a IH]; simpl; [reflexivity|].
  now destruct (Ascii.eqb x c).
Qed.

Lemma cut_app (c : ascii) (a b : string) :
  contains c a = false -> cut c (a +:+ String c b) = Some (a, b).
Proof.
  induction a as [|x a IH]; simpl.
  - now rewrite Ascii.eqb_refl.
  - destruct (Ascii.eqb x c); [discriminate|]. intros Ha. now rewrite IH.
Qed.

Lemma split_no_sep (c : ascii) (s : string) :
  contains c s = false -> split c s = [s].
Proof.
  induction s as [|x s IH]; simpl; [reflexivity|].
  destruct (Ascii.eqb x c); [discriminate|]. intros Hs. now rewrite IH.
Qed.

Lemma split_app (c : ascii) (a b : string) :
  contains c a = false -> split c (a +:+ String c b) = a :: split c b.
Proof.
  induction a as [|x a IH]; simpl.
  - now rewrite Ascii.eqb_refl.
  - destruct (Ascii.eqb x c); [discriminate|]. intros Ha. now rewrite IH.
Qed.

Lemma all_chars_contains (P : ascii -> bool) (c : ascii) (s : string) :
  P c = false -> all_chars P s = true -> contains c s = false.
Proof.
  intros Hc. induction s as [|x s IH]; simpl; [reflexivity|].
  intros [Hx Hs]%andb_true_iff.
  destruct (Ascii.eqb_spec x c) as [->|_]; [congruence | auto].
Qed.

Lemma all_chars_impl (P Q : ascii -> bool) (s : string) :
  (forall c, P c = true -> Q c = true) -> all_chars P s = true -> all_chars Q s = true.
Proof.
  intros HPQ. induction s as [|x s IH]; simpl; [reflexivity|].
  intros [Hx Hs]%andb_true_iff. rewrite (HPQ _ Hx). auto.
Qed.

(** ** Trimming *)

Lemma lstrip_solid (s : string) :
  all_chars (fun c => negb (isspace c)) s = true -> lstrip s = s.
Proof.
  destruct s as [|x s]; simpl; [reflexivity|].
  intros [Hx _]%andb_true_iff. now destruct (isspace x).
Qed.

Lemma rstrip_solid (s : string) :
  all_chars (fun c => negb (isspace c)) s = true -> rstrip s = s.
Proof.
  induction s as [|x s IH]; simpl; [reflexivity|].
  intros [Hx Hs]%andb_true_iff. rewrite (IH Hs).
  destruct s; [now destruct (isspace x) | reflexivity].
Qed.

Lemma rstrip_head (c : ascii) (s : string) :
  isspace c = false -> exists r, rstrip (String c s) = String c r.
Proof.
  intros Hc. simpl. rewrite Hc. destruct (rstrip s); unfold str1; eauto.
Qed.

Lemma rstrip_cons (c : ascii) (s : string) :
  rstrip s <> EmptyString -> rstrip (String c s) = String c (rstrip s).
Proof. simpl. now destruct (rstrip s). Qed.

Lemma rstrip_app (a b : string) :
  rstrip b <> EmptyString -> rstrip (a +:+ b) = a +:+ rstrip b.
Proof.
  intros Hb. induction a as [|x a IH]; [reflexivity|].
  change (String x a +:+ b) with (String x (a +:+ b)).
  rewrite rstrip_cons; rewrite IH; [reflexivity|].
  destruct a; simpl; [assumption | discriminate].
Qed.

Lemma rstrip_app_blank (a b : string) :
  rstrip b = EmptyString -> rstrip (a +:+ b) = rstrip a.
Proof.
  intros Hb. induction a as [|x a IH]; [assumption|].
  change (String x a +:+ b) with (String x (a +:+ b)).
  simpl. now rewrite IH.
Qed.

Lemma rstrip_idem (s : string) : rstrip (rstrip s) = rstrip s.
Proof.
  induction s as [|x s IH]; [reflexivity|]. simpl.
  destruct (rstrip s) as [|y r] eqn:E.
  - destruct (isspace x) eqn:Hx; [reflexivity|]. simpl. now rewrite Hx.
  - simpl. simpl in IH. rewrite IH. reflexivity.
Qed.

Lemma rstrip_length (s : string) : (String.length (rstrip s) <= String.length s)%nat.
Proof.
  induction s as [|x s IH]; simpl; [lia|].
  destruct (rstrip s); [destruct (isspace x)|]; simpl in *; lia.
Qed.

Lemma lstrip_length (s : string) :
  lstrip s = s \/ (String.length (lstrip s) < String.length s)%nat.
Proof.
  induction s as [|x s IH]; simpl; [now left|].
  destruct (isspace x); [right | now left].
  destruct IH as [-> | IH]; lia.
Qed.

(** A trimmed string is untouched by either half of [strip]. *)
Lemma strip_fixed (s : string) : strip s = s -> lstrip s = s /\ rstrip s = s.
Proof.
  unfold strip. intros E.
  destruct (lstrip_length s) as [Hl | Hl].
  - rewrite Hl in E. now split.
  - exfalso. pose proof (rstrip_length (lstrip s)) as Hr. rewrite E in Hr. lia.
Qed.

Lemma rstrip_no_sep (c : ascii) (s : string) :
  contains c s = false -> contains c (rstrip s) = false.
Proof.
  induction s as [|x s IH]; simpl; [reflexivity|].
  destruct (Ascii.eqb x c) eqn:Hx; [discriminate|]. intros Hs.
  specialize (IH Hs).
  destruct (rstrip s); [destruct (isspace x)|]; simpl; rewrite ?Hx; auto.
Qed.

End StringFacts.

(* ================================================================== *)
(** * Reading the refine reply *)
(* ================================================================== *)

Section RefineParsing.
Import PyStr LLMService Spec.

Lemma parse_int_result (s : string) :
  PyInt.int s = match PyInt.parse s with
                | Some n => Ok n
                | None => Raise (ValueError "invalid literal for int() with base 10")
                end.
Proof. reflexivity. Qed.

(** One turn of the parsing loop appends the frame of the line, if the
    line has one, and never raises. *)
Lemma refined_line_eq (acc : list FrameDescription) (line : string) :
  refined_line acc line = Ok (acc ++ option_list (parsed_frame line)).
Proof.
  unfold refined_line, parsed_frame, number_text, segment_before, segment_after, split1.
  destruct (startswith (strip line) "Frame") eqn:Hs.
  - rewrite (startswith_truthy _ "Frame" eq_refl Hs). simpl andb.
    rewrite cut_contains.
    destruct (cut ":" (strip line)) as [[pre post]|].
    + rewrite parse_int_result.
      destruct (PyInt.parse _); simpl; [reflexivity | now rewrite app_nil_r].
    + simpl. now rewrite app_nil_r.
  - rewrite andb_false_r. simpl. now rewrite app_nil_r.
Qed.

Lemma parsed_frame_qualifies (line : string) :
  is_Some (parsed_frame line) <-> qualifies line.
Proof.
  unfold parsed_frame, qualifies.
  destruct (startswith (strip line) "Frame"), (contains ":" (strip line)); simpl;
    try (split; [intros [? ?]; discriminate | intros (? & ? & ?); discriminate]).
  destruct (PyInt.parse (number_text line)) as [n|]; split.
  - intros _. repeat split; eauto.
  - intros _. eauto.
  - intros [? ?]; discriminate.
  - intros (_ & _ & [? ?]); discriminate.
Qed.

Lemma fold_left_option_list {A B} (g : A -> option B) (l : list A) (acc : list B) :
  fold_left (fun acc x => acc ++ option_list (g x)) l acc = acc ++ omap g l.
Proof.
  revert acc. induction l as [|x l IH]; intros acc; simpl.
  - now rewrite app_nil_r.
  - rewrite IH. destruct (g x); simpl; [|now rewrite app_nil_r].
    now rewrite <- app_assoc.
Qed.

(** The parsing loop as a whole: the frames of the qualifying lines, in
    the order of the lines. *)
Lemma parse_refined_eq (response : string) :
  parse_refined response = Ok (omap parsed_frame (split nl (strip response))).
Proof.
  unfold parse_refined.
  rewrite (for_each_pure_total _ (fun acc x => acc ++ option_list (parsed_frame x)))
    by apply refined_line_eq.
  now rewrite fold_left_option_list.
Qed.

Lemma refined_map_of_snoc (l : list FrameDescription) (f : FrameDescription) :
  refined_map_of (l ++ [f]) = <[frame_number f := description f]> (refined_map_of l).
Proof. unfold refined_map_of. now rewrite fold_left_app. Qed.

(** The dict comprehension keeps, for every number, the description of
    its last occurrence. *)
Lemma refined_map_of_lookup (parsed : list FrameDescription) (n : Z) :
  refined_map_of parsed !! n = last_occurrence n parsed.
Proof.
  unfold last_occurrence.
  induction parsed as [|f l IH] using rev_ind.
  - reflexivity.
  - rewrite refined_map_of_snoc, rev_unit. simpl.
    destruct (Z.eqb_spec (frame_number f) n) as [->|Hne].
    + now rewrite lookup_insert_eq.
    + now rewrite lookup_insert_ne.
Qed.

Lemma reconcile_fold (parsed frames acc : list FrameDescription) :
  fold_left (reconcile_one (refined_map_of parsed)) frames acc
  = acc ++ map (reconciled parsed) frames.
Proof.
  revert acc. induction frames as [|o frames IH]; intros acc; simpl.
  - now rewrite app_nil_r.
  - rewrite IH. unfold reconcile_one, reconciled.
    rewrite refined_map_of_lookup.
    destruct (last_occurrence _ _); now rewrite <- app_assoc.
Qed.

Lemma reconcile_eq (parsed frames : list FrameDescription) :
  reconcile parsed frames =
  if decide (length parsed = length frames) then parsed
  else map (reconciled parsed) frames.
Proof.
  unfold reconcile.
  destruct (Nat.eqb_spec (length parsed) (length frames)) as [E|E]; simpl.
  - now rewrite decide_True.
  - rewrite decide_False by assumption. apply reconcile_fold.
Qed.

Lemma reconcile_length (parsed frames : list FrameDescription) :
  length (reconcile parsed frames) = length frames.
Proof.
  rewrite reconcile_eq. case_decide; [assumption | apply length_map].
Qed.

End RefineParsing.

(* ================================================================== *)
(** * [call_llm] and [refine_frame_sequence] as runs *)
(* ================================================================== *)

Section RefineRuns.
Context `{Services}.
Import PyStr LLMService Spec.

Lemma call_llm_run (messages : list Message) (w : World) :
  call_llm messages w =
  (match requests_post (tick w) (llm_request messages) with
   | Ok response => read_response (_format_messages messages) response
   | Raise e => Raise e
   end, after_call w).
Proof.
  unfold call_llm, Mon.bind, Mon.external, Mon.lift, after_call.
  now destruct (requests_post _ _).
Qed.

Lemma refine_run (frames : list FrameDescription) (prompt : string) (w : World) :
  refine_frame_sequence frames prompt w =
  match call_llm (refine_messages (frames_text frames) prompt) w with
  | (Ok reply, w') =>
      (Ok (reconcile (omap parsed_frame (split nl (strip reply))) frames), w')
  | (Raise e, w') => (Raise e, w')
  end.
Proof.
  unfold refine_frame_sequence, Mon.bind.
  destruct (call_llm _ w) as [[reply|e] w']; [|reflexivity].
  unfold Mon.lift. now rewrite parse_refined_eq.
Qed.

(** Whatever the reply, the refined sequence is as long as the input. *)
Lemma refine_length frames prompt w out w' :
  refine_frame_sequence frames prompt w = (Ok out, w') ->
  length out = length frames.
Proof.
  rewrite refine_run. destruct (call_llm _ w) as [[reply|e] w1]; [|discriminate].
  intros [= <- _]. apply reconcile_length.
Qed.

End RefineRuns.

(* ================================================================== *)
(** * Refinement: numbering, reconciliation, parsing, failures *)
(* ================================================================== *)

Section RefineClaims.
Import PyStr LLMService Spec.

(** C1 (the code departs from it).  The input is the single frame
    numbered 1 and the reply is the single line [Frame 7: b]: one frame
    was parsed for one input frame, the reconciliation is skipped, and
    the output carries the number 7 of the reply, not the number 1 of
    the input. *)
Theorem refine_equal_count_keeps_reply_numbers :
  refine_frame_sequence (H := Demo.echo "Frame 7: b") [mkFrame "a" 1] "p" Demo.w0
  = (Ok [mkFrame "b" 7], after_call Demo.w0)
  /\ map frame_number [mkFrame "b" 7] <> map frame_number [mkFrame "a" 1].
Proof. split; [vm_compute; reflexivity | discriminate]. Qed.

(** C4 (the code departs from it).  The input has the numbers 1, 3, 5
    and the reply has three lines numbered 1, 2, 3: the counts agree, so
    the parsed frames are returned as they are; number 2 is in the output
    and number 5 is gone. *)
Theorem refine_equal_count_injects_foreign_number :
  exists out,
    refine_frame_sequence
      (H := Demo.echo (Demo.lines ["Frame 1: p"; "Frame 2: X"; "Frame 3: q"]))
      Demo.frames_135 "cat" Demo.w0 = (Ok out, after_call Demo.w0)
    /\ map frame_number Demo.frames_135 = [1; 3; 5]
    /\ map frame_number out = [1; 2; 3]
    /\ out !! 1%nat = Some (mkFrame "X" 2).
Proof. eexists. repeat split; vm_compute; reflexivity. Qed.

(** C5 (the code departs from it).  The input has the frames numbered 1
    and 2 and the reply has the two lines [Frame 1: x] and [Frame 1: y]:
    two frames were parsed for two input frames, so the guard of line 202
    skips the reconciliation and the parsed frames are returned as they
    are.  The mapping by number gives number 1 its last description [y]
    and has nothing for number 2, so the reconciled output would be [y]
    under number 1 and the original second frame; the output has [x] and
    [y], both under number 1, and the original second frame is gone. *)
Theorem refine_equal_count_skips_reconciliation :
  parse_refined (Demo.lines ["Frame 1: x"; "Frame 1: y"])
  = Ok [mkFrame "x" 1; mkFrame "y" 1]
  /\ refined_map_of [mkFrame "x" 1; mkFrame "y" 1] !! 1 = Some "y"
  /\ refined_map_of [mkFrame "x" 1; mkFrame "y" 1] !! 2 = None
  /\ map (reconciled [mkFrame "x" 1; mkFrame "y" 1]) [mkFrame "a" 1; mkFrame "b" 2]
     = [mkFrame "y" 1; mkFrame "b" 2]
  /\ refine_frame_sequence (H := Demo.echo (Demo.lines ["Frame 1: x"; "Frame 1: y"]))
       [mkFrame "a" 1; mkFrame "b" 2] "p" Demo.w0
     = (Ok [mkFrame "x" 1; mkFrame "y" 1], after_call Demo.w0)
  /\ [mkFrame "x" 1; mkFrame "y" 1] <> [mkFrame "y" 1; mkFrame "b" 2].
Proof.
  split; [vm_compute; reflexivity|].
  split; [vm_compute; reflexivity|].
  split; [vm_compute; reflexivity|].
  split; [vm_compute; reflexivity|].
  split; [vm_compute; reflexivity | discriminate].
Qed.

(** X24.  When the number of parsed frames differs from the number of
    input frames the reconciliation runs: the mapping gives every number
    the description of its last occurrence among the parsed frames, and
    the output has one frame per original frame, in the original order
    and with the original number: the mapped description where the
    mapping has the number, the original frame itself where it has not. *)
Theorem reconciliation_by_number `{Services}
    (frames : list FrameDescription) (prompt reply : string) (w w' : World)
    (parsed : list FrameDescription) :
  call_llm (refine_messages (frames_text frames) prompt) w = (Ok reply, w') ->
  parse_refined reply = Ok parsed ->
  length parsed <> length frames ->
  (forall n, refined_map_of parsed !! n = last_occurrence n parsed)
  /\ exists out,
      refine_frame_sequence frames prompt w = (Ok out, w')
      /\ length out = length frames
      /\ forall i original, frames !! i = Some original ->
           out !! i = Some (match refined_map_of parsed !! frame_number original with
                            | Some d => mkFrame d (frame_number original)
                            | None => original
                            end).
Proof.
  intros Hcall Hparse Hlen. split; [apply refined_map_of_lookup|].
  rewrite parse_refined_eq in Hparse. injection Hparse as <-.
  rewrite refine_run, Hcall, reconcile_eq, decide_False by assumption.
  eexists. split; [reflexivity|]. split; [apply length_map|].
  intros i original Hi. rewrite list_lookup_fmap, Hi. simpl.
  unfold reconciled. now rewrite refined_map_of_lookup.
Qed.

Lemma reconciliation_by_number_witness :
  exists out,
    refine_frame_sequence
      (H := Demo.echo (Demo.lines ["Frame 1: p"; "Frame 2: X"; "junk";
                                   "Frame 5: z"; "Frame 1: pp"]))
      Demo.frames_135 "cat" Demo.w0 = (Ok out, after_call Demo.w0)
    /\ out !! 0%nat = Some (mkFrame "pp" 1)
    /\ out !! 1%nat = Some (mkFrame "the cat wakes" 3)
    /\ out !! 2%nat = Some (mkFrame "z" 5).
Proof.
  destruct (reconciliation_by_number
              (H := Demo.echo (Demo.lines ["Frame 1: p"; "Frame 2: X"; "junk";
                                           "Frame 5: z"; "Frame 1: pp"]))
              Demo.frames_135 "cat"
              (Demo.lines ["Frame 1: p"; "Frame 2: X"; "junk"; "Frame 5: z"; "Frame 1: pp"])
              Demo.w0 (after_call Demo.w0)
              [mkFrame "p" 1; mkFrame "X" 2; mkFrame "z" 5; mkFrame "pp" 1])
    as [_ (out & Hrun & _ & Hout)].
  - vm_compute; reflexivity.
  - vm_compute; reflexivity.
  - simpl; lia.
  - exists out. split; [exact Hrun|].
    split; [|split].
    + rewrite (Hout 0%nat (mkFrame "a cat sleeps" 1) eq_refl). reflexivity.
    + rewrite (Hout 1%nat (mkFrame "the cat wakes" 3) eq_refl). reflexivity.
    + rewrite (Hout 2%nat (mkFrame "the cat leaves" 5) eq_refl). reflexivity.
Defined.

(** C6.  The frames refine parses from a reply are those of its
    qualifying lines, in the order of the lines: a line contributes a
    frame exactly when it qualifies, that is when, trimmed, it starts
    with the word [Frame], it holds a colon, and the segment before the
    colon reads as an integer once the word [Frame] is taken out of it.
    The frame carries that integer and the trimmed text after the colon.
    A line that does not qualify leaves the parsed frames as they were,
    neither a line nor a whole reply makes the parsing raise, and the
    frames so parsed are what refine reconciles with its input. *)
Theorem refined_line_contributes_iff_qualifies
    (acc : list FrameDescription) (line : string) :
  ((exists f, refined_line acc line = Ok (acc ++ [f])) <-> qualifies line)
  /\ (forall f, refined_line acc line = Ok (acc ++ [f]) ->
        PyInt.parse (number_text line) = Some (frame_number f)
        /\ description f = strip (segment_after ":" (strip line)))
  /\ (~ qualifies line -> refined_line acc line = Ok acc)
  /\ (forall response : string, exists parsed, parse_refined response = Ok parsed)
  /\ (forall f,
        parsed_frame line = Some f
        <-> qualifies line
            /\ PyInt.parse (number_text line) = Some (frame_number f)
            /\ description f = strip (segment_after ":" (strip line)))
  /\ (forall response : string,
        parse_refined response = Ok (omap parsed_frame (split nl (strip response))))
  /\ (forall (services : Services) (frames : list FrameDescription) (prompt reply : string)
             (w w' : World),
        call_llm (refine_messages (frames_text frames) prompt) w = (Ok reply, w') ->
        refine_frame_sequence frames prompt w
        = (Ok (reconcile (omap parsed_frame (split nl (strip reply))) frames), w')).
Proof.
  assert (Hinv : forall f, Ok (A := list FrameDescription)
                             (acc ++ option_list (parsed_frame line)) = Ok (acc ++ [f]) ->
                           parsed_frame line = Some f).
  { intros f [= E]. apply app_inv_head in E.
    destruct (parsed_frame line); [now injection E as -> | discriminate]. }
  assert (Hshape : forall f, parsed_frame line = Some f ->
                     PyInt.parse (number_text line) = Some (frame_number f)
                     /\ description f = strip (segment_after ":" (strip line))).
  { intros f Hf. unfold parsed_frame in Hf.
    destruct (_ && _); [|discriminate].
    destruct (PyInt.parse (number_text line)); [|discriminate].
    now injection Hf as <-. }
  rewrite refined_line_eq.
  split; [split|split; [|split; [|split; [|split; [|split]]]]].
  - intros [f Hf]. apply parsed_frame_qualifies. rewrite (Hinv f Hf). eauto.
  - intros [f Hf]%parsed_frame_qualifies. exists f. now rewrite Hf.
  - intros f Hf%Hinv. now apply Hshape.
  - intros Hq. destruct (parsed_frame line) eqn:E.
    + exfalso. apply Hq, parsed_frame_qualifies. eauto.
    + simpl. now rewrite app_nil_r.
  - intros response. rewrite parse_refined_eq. eauto.
  - intros f. split.
    + intros Hf. split; [apply parsed_frame_qualifies; eauto | now apply Hshape].
    + intros (Hq & Hnum & Hdesc). apply parsed_frame_qualifies in Hq as [g Hg].
      destruct (Hshape g Hg) as [Hnum' Hdesc']. rewrite Hg. f_equal.
      destruct f as [d n], g as [d' n']. simpl in *. congruence.
  - apply parse_refined_eq.
  - intros services frames prompt reply w w' Hcall.
    now rewrite refine_run, Hcall.
Qed.

End RefineClaims.

(* ================================================================== *)
(** * Failures of the text-completion call *)
(* ================================================================== *)

Section CompletionFailures.
Import PyStr LLMService Spec.

(** [read_response] raises exactly on a status other than 200 and on a
    body it cannot read. *)
Lemma read_response_raises (inputs : string) (response : Response) :
  is_ok (read_response inputs response) = false
  <-> status_code response <> 200 \/ readable (json_body response) = false.
Proof.
  unfold read_response, readable, text_or_absent.
  destruct (Z.eqb_spec (status_code response) 200) as [E|E]; simpl.
  2:{ split; [now left | reflexivity]. }
  assert (Hget : forall items,
             is_ok (let+ generated := Py.get (JDict items) "generated_text" (JStr EmptyString) in
                    Py.replace_strip generated inputs EmptyString)
             = match Py.dict_lookup "generated_text" items with
               | Some (JStr _) | None => true
               | Some _ => false
               end).
  { intros items. simpl. destruct (Py.dict_lookup _ items) as [[]|]; reflexivity. }
  destruct (json_body response) as [body|e]; simpl.
  2:{ split; [now right | reflexivity]. }
  destruct body as [| | | | |l|items]; simpl;
    try (split; [discriminate | intros [?|?]; [contradiction | discriminate]]).
  - destruct l as [|first l]; simpl;
      [split; [discriminate | intros [?|?]; [contradiction | discriminate]]|].
    destruct first; simpl;
      try (split; [now right | reflexivity]).
    rewrite <- Hget. simpl. split; [now right | intros [?|?]; [contradiction | assumption]].
  - rewrite <- Hget. simpl. split; [now right | intros [?|?]; [contradiction | assumption]].
Qed.

(** C7, as the claim states it, fails: the service answers with status
    200 and the JSON body [[5]], and [call_llm] raises all the same
    ([result[0].get] on an [int]). *)
Lemma call_llm_raises_on_success_status :
  ~ (forall (H : Services) (messages : list Message) (w : World) (response : Response),
       requests_post (tick w) (llm_request messages) = Ok response ->
       (raises (call_llm messages) w <-> status_code response <> 200)).
Proof.
  intros Hclaim.
  destruct (Hclaim Demo.odd_shape [] Demo.w0
              (mkResponse 200 "[5]" (Ok (JList [JInt 5]))) eq_refl) as [Hraises _].
  apply Hraises; [|reflexivity].
  eexists _, _. vm_compute. reflexivity.
Qed.

(** C7, amended.  [call_llm] raises whenever the service answers with a
    status other than 200, and the error carries the text of the
    response.  [refine_frame_sequence] returns whenever its call of
    [call_llm] returns, whatever the reply holds, and when that call
    raises it raises the same error. *)
Theorem completion_failure_is_surfaced `{Services} :
  (forall (messages : list Message) (w : World) (response : Response),
      requests_post (tick w) (llm_request messages) = Ok response ->
      status_code response <> 200 ->
      call_llm messages w
      = (Raise (ValueError ("Error from Hugging Face API: " +:+ text response)),
         after_call w))
  /\ (forall (messages : list Message) (w : World) (response : Response),
        requests_post (tick w) (llm_request messages) = Ok response ->
        (raises (call_llm messages) w
         <-> status_code response <> 200 \/ readable (json_body response) = false))
  /\ (forall frames prompt w reply w',
        call_llm (refine_messages (frames_text frames) prompt) w = (Ok reply, w') ->
        exists out, refine_frame_sequence frames prompt w = (Ok out, w'))
  /\ (forall frames prompt w e w',
        call_llm (refine_messages (frames_text frames) prompt) w = (Raise e, w') ->
        refine_frame_sequence frames prompt w = (Raise e, w'))
  /\ (forall frames prompt w e w',
        refine_frame_sequence frames prompt w = (Raise e, w') ->
        call_llm (refine_messages (frames_text frames) prompt) w = (Raise e, w')).
Proof.
  split; [|split; [|split; [|split]]].
  - intros messages w response Hpost Hstatus.
    rewrite call_llm_run, Hpost. unfold read_response.
    destruct (Z.eqb_spec (status_code response) 200); [contradiction | reflexivity].
  - intros messages w response Hpost. unfold raises.
    rewrite call_llm_run, Hpost.
    rewrite <- (read_response_raises (_format_messages messages) response).
    split.
    + intros (e & w' & [= E _]). now rewrite E.
    + destruct (read_response _ response) as [a|e]; [discriminate | eauto].
  - intros frames prompt w reply w' Hcall. rewrite refine_run, Hcall. eauto.
  - intros frames prompt w e w' Hcall. now rewrite refine_run, Hcall.
  - intros frames prompt w e w'. rewrite refine_run.
    destruct (call_llm _ w) as [[reply|e1] w1]; [discriminate | now intros [= -> ->]].
Qed.

Lemma completion_failure_is_surfaced_witness :
  call_llm
    (H := Demo.scripted None (fun _ => Ok (mkResponse 503 "model is loading" (Raise (JSONDecodeError "no JSON")))))
    [] Demo.w0
  = (Raise (ValueError "Error from Hugging Face API: model is loading"), after_call Demo.w0).
Proof.
  apply (proj1 (completion_failure_is_surfaced
                  (H := Demo.scripted None
                          (fun _ => Ok (mkResponse 503 "model is loading"
                                                   (Raise (JSONDecodeError "no JSON"))))))
               [] Demo.w0 (mkResponse 503 "model is loading" (Raise (JSONDecodeError "no JSON")))).
  - reflexivity.
  - simpl. lia.
Defined.

End CompletionFailures.

(* ================================================================== *)
(** * The image batch *)
(* ================================================================== *)

Section ImageBatch.
Context `{Services}.
Import PyStr ImageGenerationService Spec.

Lemma generate_image_run (prompt : string) (negative_prompt : option string) (w : World) :
  generate_image prompt negative_prompt w =
  match usable_key with
  | None => (Ok None, w)
  | Some key =>
      (Ok match requests_post (tick w) (image_request key prompt negative_prompt) with
          | Ok response =>
              match read_image response with Ok image => image | Raise _ => None end
          | Raise _ => None
          end, after_call w)
  end.
Proof.
  unfold generate_image. destruct usable_key as [key|]; [|reflexivity].
  unfold Mon.try_except, Mon.bind, Mon.external, Mon.lift, Mon.ret, after_call.
  destruct (requests_post _ _) as [response|e]; [|reflexivity].
  now destruct (read_image response).
Qed.

(** [generate_image] never raises. *)
Lemma generate_image_returns prompt negative_prompt w :
  exists image w', generate_image prompt negative_prompt w = (Ok image, w').
Proof. rewrite generate_image_run. destruct usable_key; eauto. Qed.


(** A turn of the batch loop whose frame got no image keeps the paths
    collected so far, raises nothing and hands over to the next turn. *)
Lemma frame_image_skips style_prompt negative_prompt total paths i frame w w1 :
  generate_image (description frame +:+ ". " +:+ style_prompt) (Some negative_prompt) w
  = (Ok None, w1) ->
  exists w2, frame_image style_prompt negative_prompt total (paths, i) frame w
             = (Ok (paths, S i), w2).
Proof.
  intros Hgen. unfold frame_image.
  rewrite (bind_ok _ _ _ _ _ Hgen). rewrite bind_ret.
  unfold Mon.bind. destruct (_ <? _); simpl; eauto.
Qed.

Lemma save_image_run (image : Image) (filename : string) (w : World) :
  exists path,
    save_image image filename w =
    (match image_save (S (tick w)) image path with
     | Ok _ => Ok path
     | Raise e => Raise e
     end, after_call (after_call w))
    /\ truthy path = true.
Proof.
  exists (path_join output_dir
            (strftime_now (tick w) +:+ "_" +:+ map_chars clean_char filename +:+ ".png")).
  unfold save_image, Mon.bind, Mon.external, Mon.ret, after_call. simpl.
  split.
  - destruct (image_save _ _ _) as [[]|e]; reflexivity.
  - unfold path_join.
    destruct (startswith _ "/") eqn:E1.
    { now destruct (strftime_now (tick w) +:+ _). }
    destruct (negb (truthy output_dir)) eqn:E2.
    { destruct (strftime_now (tick w)); reflexivity. }
    destruct output_dir; [discriminate|].
    now destruct (String.eqb _ "/").
Qed.

(** A turn of the batch loop whose frame got an image and whose image was
    saved adds exactly one path. *)
Lemma frame_image_keeps style_prompt negative_prompt total paths i frame w :
  (forall k image path, image_save k image path = Ok tt) ->
  exists paths' w2,
    frame_image style_prompt negative_prompt total (paths, i) frame w
    = (Ok (paths', S i), w2)
    /\ forall image w1,
         generate_image (description frame +:+ ". " +:+ style_prompt)
                        (Some negative_prompt) w = (Ok image, w1) ->
         match image with
         | Some _ => exists path, paths' = paths ++ [path]
         | None => paths' = paths
         end.
Proof.
  intros Hsave.
  destruct (generate_image_returns (description frame +:+ ". " +:+ style_prompt)
              (Some negative_prompt) w) as (image & w1 & Hgen).
  destruct image as [img|].
  - unfold frame_image. rewrite (bind_ok _ _ _ _ _ Hgen).
    destruct (save_image_run img (frame_filename frame) w1) as (path & Hrun & Hpath).
    rewrite Hsave in Hrun.
    unfold Mon.bind. rewrite Hrun, Hpath.
    unfold Mon.ret. destruct (_ <? _);
      (do 2 eexists; split; [reflexivity|]);
      intros image w1' E; rewrite Hgen in E; injection E as <- _; eauto.
  - destruct (frame_image_skips _ _ total paths i _ _ _ Hgen) as [w2 Hrun].
    exists paths, w2. split; [exact Hrun|].
    intros image w1' E. rewrite Hgen in E. now injection E as <- _.
Qed.


End ImageBatch.

Section ImageBatchExamples.
Import PyStr ImageGenerationService Spec.

(** Without a key no request is made and the batch is empty. *)
Example batch_without_key :
  generate_frame_images (H := Demo.echo "unused") Demo.five_frames
    "high quality" "blurry" Demo.w0
  = (Ok [], mkWorld 0 4 ∅).
Proof. vm_compute. reflexivity. Qed.

End ImageBatchExamples.

(* ================================================================== *)
(** * Printing and reading integers *)
(* ================================================================== *)

Section IntegerText.
Import PyStr.

Lemma uint_text_digits (d : Decimal.uint) :
  all_chars isdecimal (NilEmpty.string_of_uint d) = true.
Proof. induction d; simpl; auto. Qed.

Ltac eval_digit :=
  match goal with
  | |- context [digit_value ?c] =>
      let v := eval vm_compute in (digit_value c) in
      change (digit_value c) with v
  end.

Lemma digits_acc (d : Decimal.uint) (p : positive) :
  PyInt.digits (NilEmpty.string_of_uint d) false (Z.pos p)
  = Some (Z.pos (Pos.of_uint_acc d p)).
Proof.
  revert p. induction d; intros p; simpl; [reflexivity | ..];
    eval_digit; rewrite <- IHd; f_equal; lia.
Qed.

Lemma digits_zero (d : Decimal.uint) :
  PyInt.digits (NilEmpty.string_of_uint d) false 0 = Some (Z.of_N (Pos.of_uint d)).
Proof.
  induction d; simpl; [reflexivity | exact IHd | ..];
    eval_digit; rewrite <- digits_acc; f_equal.
Qed.

Lemma pos_text (p : positive) :
  exists c s, NilEmpty.string_of_uint (Pos.to_uint p) = String c s
              /\ isdecimal c = true.
Proof.
  pose proof (Unsigned.to_uint_nonnil p) as Hnil.
  destruct (Pos.to_uint p); [contradiction | ..]; simpl; eauto.
Qed.

Lemma unsigned_pos (p : positive) :
  PyInt.unsigned (NilEmpty.string_of_uint (Pos.to_uint p)) = Some (Z.pos p).
Proof.
  destruct (pos_text p) as (c & s & E & Hc).
  unfold PyInt.unsigned. rewrite E, Hc, <- E, digits_zero, Unsigned.of_to.
  reflexivity.
Qed.

Lemma str_of_int_pos (p : positive) :
  str_of_int (Z.pos p) = NilEmpty.string_of_uint (Pos.to_uint p).
Proof.
  unfold str_of_int. simpl. unfold NilZero.string_of_uint.
  pose proof (Unsigned.to_uint_nonnil p) as Hnil.
  now destruct (Pos.to_uint p).
Qed.

Lemma str_of_int_neg (p : positive) :
  str_of_int (Z.neg p) = String "-" (NilEmpty.string_of_uint (Pos.to_uint p)).
Proof.
  unfold str_of_int. simpl. unfold NilZero.string_of_uint.
  pose proof (Unsigned.to_uint_nonnil p) as Hnil.
  now destruct (Pos.to_uint p).
Qed.

(** The text of an integer is made of digits and, at most, a sign. *)
Lemma str_of_int_chars (n : Z) : all_chars digit_or_minus (str_of_int n) = true.
Proof.
  assert (Hd : forall d, all_chars digit_or_minus (NilEmpty.string_of_uint d) = true).
  { intros d. apply (all_chars_impl isdecimal); [|apply uint_text_digits].
    intros c Hc. unfold digit_or_minus. now rewrite Hc. }
  destruct n as [|p|p]; [reflexivity | |].
  - rewrite str_of_int_pos. apply Hd.
  - rewrite str_of_int_neg. simpl. apply Hd.
Qed.

Lemma digit_or_minus_solid (c : ascii) :
  digit_or_minus c = true -> negb (isspace c) = true.
Proof.
  unfold digit_or_minus, isdecimal, isspace.
  intros [Hc | Hc%Ascii.eqb_eq]%orb_true_iff; [|now subst c].
  apply andb_true_iff in Hc as [H1%Nat.leb_le H2%Nat.leb_le].
  apply negb_true_iff.
  repeat match goal with
         | |- context [(?a <=? ?b)%nat] => destruct (Nat.leb_spec a b)
         | |- context [(?a =? ?b)%nat] => destruct (Nat.eqb_spec a b)
         end; simpl; try reflexivity; lia.
Qed.

Lemma str_of_int_solid (n : Z) :
  all_chars (fun c => negb (isspace c)) (str_of_int n) = true.
Proof.
  apply (all_chars_impl digit_or_minus); [apply digit_or_minus_solid|].
  apply str_of_int_chars.
Qed.

(** Reading back what was printed. *)
Lemma parse_str_of_int (n : Z) : PyInt.parse (str_of_int n) = Some n.
Proof.
  unfold PyInt.parse, strip.
  rewrite (lstrip_solid _ (str_of_int_solid n)), (rstrip_solid _ (str_of_int_solid n)).
  destruct n as [|p|p]; [reflexivity | |].
  - rewrite str_of_int_pos.
    destruct (pos_text p) as (c & s & E & Hc).
    rewrite <- (unsigned_pos p). rewrite E.
    destruct (Ascii.eqb_spec c "+") as [->|H1]; [discriminate|].
    destruct (Ascii.eqb_spec c "-") as [->|H2]; [discriminate|].
    destruct c as [[] [] [] [] [] [] [] []]; try reflexivity; congruence.
  - rewrite str_of_int_neg. now rewrite unsigned_pos.
Qed.

End IntegerText.

(* ================================================================== *)
(** * A reply that echoes the rendered frames *)
(* ================================================================== *)

Section Echo.
Import PyStr LLMService Spec.

Lemma replace_from_absent (old new s : string) (c : ascii) (rest : string) :
  old = String c rest -> contains c s = false -> replace_from old new O s = s.
Proof.
  intros ->. induction s as [|x s IH]; simpl; [reflexivity|].
  destruct (Ascii.eqb_spec x c) as [->|Hx]; [discriminate|]. intros Hs.
  destruct (ascii_dec c x) as [->|_]; [contradiction|].
  now rewrite IH.
Qed.

Lemma number_segment (n : Z) :
  strip (replace ("Frame " +:+ str_of_int n) "Frame" EmptyString) = str_of_int n.
Proof.
  unfold replace. simpl.
  rewrite (replace_from_absent "Frame" EmptyString (str_of_int n) "F" "rame" eq_refl).
  2:{ apply (all_chars_contains digit_or_minus); [reflexivity | apply str_of_int_chars]. }
  unfold strip. simpl.
  now rewrite (lstrip_solid _ (str_of_int_solid n)), (rstrip_solid _ (str_of_int_solid n)).
Qed.

Lemma rendered_prefix_no_colon (n : Z) :
  contains ":" ("Frame " +:+ str_of_int n) = false.
Proof.
  rewrite contains_app. simpl.
  apply (all_chars_contains digit_or_minus); [reflexivity | apply str_of_int_chars].
Qed.

(** The trimmed form of a rendered frame: only the blank after the colon
    can go, when the description is empty. *)
Lemma strip_render_frame (f : FrameDescription) :
  strip (description f) = description f ->
  strip (render_frame f)
  = ("Frame " +:+ str_of_int (frame_number f)) +:+ String ":" (rstrip (String " " (description f)))
  /\ strip (rstrip (String " " (description f))) = description f.
Proof.
  intros [Hl Hr]%strip_fixed. unfold render_frame, strip at 1.
  change (lstrip ("Frame " +:+ ?s)) with ("Frame " +:+ s).
  replace ("Frame " +:+ str_of_int (frame_number f) +:+ ": " +:+ description f)
    with (("Frame " +:+ str_of_int (frame_number f) +:+ ":") +:+ String " " (description f))
    by (now rewrite !append_assoc).
  destruct (description f) as [|c d] eqn:Ed.
  - split; [|reflexivity].
    rewrite rstrip_app_blank by reflexivity.
    rewrite <- append_assoc, rstrip_app by discriminate.
    simpl rstrip. now rewrite append_assoc.
  - assert (Hne : rstrip (String c d) <> EmptyString) by (rewrite Hr; discriminate).
    rewrite (rstrip_cons " " _ Hne), Hr. split.
    + rewrite rstrip_app by (rewrite (rstrip_cons " " _ Hne), Hr; discriminate).
      rewrite (rstrip_cons " " _ Hne), Hr. now rewrite !append_assoc.
    + unfold strip. change (lstrip (String " " (String c d))) with (lstrip (String c d)).
      now rewrite Hl, Hr.
Qed.

(** A rendered frame reads back as itself. *)
Lemma parsed_frame_render (f : FrameDescription) :
  strip (description f) = description f ->
  parsed_frame (render_frame f) = Some f.
Proof.
  intros Hd. destruct (strip_render_frame f Hd) as [Hstrip Hdesc].
  unfold parsed_frame, number_text, segment_before, segment_after.
  rewrite Hstrip.
  rewrite cut_contains, (cut_app ":" _ _ (rendered_prefix_no_colon _)).
  rewrite number_segment, parse_str_of_int, Hdesc.
  rewrite append_assoc. simpl. now destruct f.
Qed.

Lemma parsed_frame_strip (l1 l2 : string) :
  strip l1 = strip l2 -> parsed_frame l1 = parsed_frame l2.
Proof. unfold parsed_frame, number_text. now intros ->. Qed.

#[local] Arguments render_frame : simpl never.

Lemma render_frame_one_line (f : FrameDescription) :
  contains nl (description f) = false -> contains nl (render_frame f) = false.
Proof.
  intros Hd. unfold render_frame. rewrite !contains_app, Hd.
  rewrite (all_chars_contains digit_or_minus nl _ eq_refl (str_of_int_chars _)).
  reflexivity.
Qed.

Lemma join_cons (sep x : string) (l : list string) :
  l <> [] -> join sep (x :: l) = x +:+ sep +:+ join sep l.
Proof. now destruct l. Qed.

Lemma rstrip_rendered (frames : list FrameDescription) :
  frames <> [] ->
  exists r, rstrip (frames_text frames) = String "F" r.
Proof.
  destruct frames as [|f frames]; [contradiction|]. intros _.
  unfold frames_text. simpl map.
  destruct (map render_frame frames) eqn:E.
  - apply rstrip_head. reflexivity.
  - rewrite join_cons by discriminate. apply rstrip_head. reflexivity.
Qed.

(** The lines of the trimmed text of well-formatted frames are, up to
    trimming, the rendered frames. *)
Lemma lines_of_frames_text (frames : list FrameDescription) :
  frames <> [] ->
  well_formatted frames = true ->
  map strip (split nl (rstrip (frames_text frames))) = map strip (map render_frame frames).
Proof.
  induction frames as [|f frames IH]; [contradiction|]. intros _.
  unfold well_formatted. simpl forallb. intros [Hf Hrest]%andb_true_iff.
  apply andb_true_iff in Hf as [_ Hnl%negb_true_iff].
  destruct frames as [|g frames].
  - unfold frames_text. cbn [map join].
    rewrite split_no_sep by (apply rstrip_no_sep, render_frame_one_line, Hnl).
    cbn [map]. f_equal. unfold strip.
    destruct (rstrip_head "F" ("rame " +:+ str_of_int (frame_number f) +:+ ": " +:+ description f)
                eq_refl) as [r Hr].
    change (String "F" ("rame " +:+ ?s)) with ("Frame " +:+ s) in Hr.
    fold (render_frame f) in Hr.
    rewrite Hr. simpl lstrip. rewrite <- Hr. rewrite rstrip_idem.
    reflexivity.
  - specialize (IH ltac:(discriminate) Hrest).
    destruct (rstrip_rendered (g :: frames) ltac:(discriminate)) as [r Hr].
    unfold frames_text in *. change (map render_frame (f :: g :: frames))
      with (render_frame f :: map render_frame (g :: frames)).
    rewrite join_cons by discriminate.
    set (J := join NL (map render_frame (g :: frames))) in *.
    change (NL +:+ J) with (String nl J).
    rewrite rstrip_app.
    2:{ rewrite rstrip_cons; [discriminate | rewrite Hr; discriminate]. }
    rewrite rstrip_cons by (rewrite Hr; discriminate).
    rewrite split_app by (apply render_frame_one_line, Hnl).
    cbn [map]. cbn [map] in IH. rewrite IH. reflexivity.
Qed.

Lemma omap_strip_ext (l1 l2 : list string) :
  map strip l1 = map strip l2 -> omap parsed_frame l1 = omap parsed_frame l2.
Proof.
  revert l2. induction l1 as [|x l1 IH]; intros [|y l2]; try discriminate;
    [reflexivity|].
  intros [= Hxy Hrest]. cbn [omap list_omap].
  rewrite (parsed_frame_strip x y Hxy). fold (omap parsed_frame l1) (omap parsed_frame l2).
  now rewrite (IH l2 Hrest).
Qed.

Lemma omap_rendered (frames : list FrameDescription) :
  well_formatted frames = true ->
  omap parsed_frame (map render_frame frames) = frames.
Proof.
  induction frames as [|f frames IH]; [reflexivity|].
  unfold well_formatted. simpl forallb. intros [Hf Hrest]%andb_true_iff.
  apply andb_true_iff in Hf as [Hd%String.eqb_eq _].
  cbn [map omap list_omap]. rewrite (parsed_frame_render f Hd). f_equal.
  fold (omap parsed_frame (map render_frame frames)). now apply IH.
Qed.

(** Reading the echo of well-formatted frames gives the frames back. *)
Lemma parse_echo (frames : list FrameDescription) (reply : string) :
  well_formatted frames = true ->
  strip reply = strip (frames_text frames) ->
  parse_refined reply = Ok frames.
Proof.
  intros Hwf Hecho. rewrite parse_refined_eq, Hecho. f_equal.
  destruct frames as [|f frames]; [reflexivity|].
  unfold strip.
  assert (Hl : lstrip (frames_text (f :: frames)) = frames_text (f :: frames)).
  { unfold frames_text. simpl map. destruct (map render_frame frames);
      [reflexivity | now rewrite join_cons by discriminate]. }
  rewrite Hl.
  rewrite (omap_strip_ext _ _ (lines_of_frames_text (f :: frames) ltac:(discriminate) Hwf)).
  now apply omap_rendered.
Qed.

(** C9.  When the frames are well formatted (every description trimmed
    and on one line) and the reply echoes their rendering [Frame k:
    description], line for line (up to blanks around the whole text),
    [refine_frame_sequence] returns the input frames: the descriptions
    are those of the input. *)
Theorem refine_echo_is_identity `{Services}
    (frames : list FrameDescription) (prompt reply : string) (w w' : World) :
  well_formatted frames = true ->
  call_llm (refine_messages (frames_text frames) prompt) w = (Ok reply, w') ->
  strip reply = strip (frames_text frames) ->
  exists out,
    refine_frame_sequence frames prompt w = (Ok out, w')
    /\ map description out = map description frames
    /\ out = frames.
Proof.
  intros Hwf Hcall Hecho. exists frames.
  pose proof (parse_echo frames reply Hwf Hecho) as Hparse.
  rewrite parse_refined_eq in Hparse. injection Hparse as Hparse.
  rewrite refine_run, Hcall, Hparse, reconcile_eq, decide_True by reflexivity.
  auto.
Qed.

Lemma refine_echo_is_identity_witness :
  exists out,
    refine_frame_sequence (H := Demo.echo (frames_text Demo.frames_135))
      Demo.frames_135 "cat" Demo.w0 = (Ok out, after_call Demo.w0)
    /\ map description out = ["a cat sleeps"; "the cat wakes"; "the cat leaves"].
Proof.
  destruct (refine_echo_is_identity (H := Demo.echo (frames_text Demo.frames_135))
              Demo.frames_135 "cat" (frames_text Demo.frames_135)
              Demo.w0 (after_call Demo.w0))
    as (out & Hrun & Hd & _).
  - reflexivity.
  - vm_compute. reflexivity.
  - reflexivity.
  - exists out. split; [exact Hrun | exact Hd].
Defined.

(** A description that spans two lines does not survive the echo: the
    frames have to be well formatted. *)
Example echo_of_two_line_description :
  let frames := [mkFrame (Demo.lines ["a"; "b"]) 1] in
  refine_frame_sequence (H := Demo.echo (frames_text frames)) frames "cat" Demo.w0
  = (Ok [mkFrame "a" 1], after_call Demo.w0).
Proof. vm_compute. reflexivity. Qed.

End Echo.

(* ================================================================== *)
(** * Refinement on objects: what is allocated, what is left alone *)
(* ================================================================== *)

Section StoreFacts.
Context `{Services}.
Import PyStr LLMService Spec Store.

Lemma holds_weaken (h h' : gmap loc obj) items fs :
  h ⊆ h' -> holds h items fs -> holds h' items fs.
Proof.
  unfold holds. intros Hsub Hh. eapply Forall2_impl; [exact Hh|].
  intros x f Hx. exact (lookup_weaken _ _ _ _ Hx Hsub).
Qed.

Lemma holds_agree (l : loc) (h h' : gmap loc obj) ls items fs :
  h !! l = Some (OList ls) -> agree_off l h h' ->
  holds h items fs -> holds h' items fs.
Proof.
  unfold holds. intros Hl Hag Hh. eapply Forall2_impl; [exact Hh|].
  intros x f Hx. apply (Hag x); [|exact Hx]. intros E. rewrite E in Hx. congruence.
Qed.

Lemma fresh_unused (h : gmap loc obj) : h !! fresh (dom h) = None.
Proof. apply not_elem_of_dom, is_fresh. Qed.

Lemma unused_mono (h h' : gmap loc obj) (x : loc) :
  dom h ⊆ dom h' -> h' !! x = None -> h !! x = None.
Proof.
  intros Hdom Hx. apply not_elem_of_dom. intros Hin.
  apply Hdom, elem_of_dom in Hin as [o Ho]. congruence.
Qed.

Lemma read_all_loop {A} (g : FrameDescription -> A) items fs (acc : list A) w :
  holds (heap w) items fs ->
  for_each (fun acc x => let* f := Mon.get_frame x in Mon.ret (acc ++ [g f])) acc items w
  = (Ok (acc ++ map g fs), w).
Proof.
  intros Hh. revert acc. induction Hh as [|x f items fs Hx _ IH]; intros acc; simpl.
  - now rewrite app_nil_r.
  - unfold Mon.bind at 1. unfold Mon.bind at 1. unfold Mon.get_frame. rewrite Hx.
    unfold Mon.ret at 1. rewrite IH, <- app_assoc. reflexivity.
Qed.

Lemma read_all_run {A} (g : FrameDescription -> A) l fs w :
  is_frames (heap w) l fs -> read_all g l w = (Ok (map g fs), w).
Proof.
  intros (items & Hl & Hh). unfold read_all, Mon.bind at 1, Mon.get_list.
  rewrite Hl. now rewrite (read_all_loop g items fs [] w Hh).
Qed.

Lemma len_run l items w :
  heap w !! l = Some (OList items) -> len l w = (Ok (length items), w).
Proof. intros Hl. unfold len, Mon.bind, Mon.get_list. now rewrite Hl. Qed.

(** A constructor call followed by an [append] to the list [l]. *)
Lemma alloc_append_run (l : loc) (ls : list loc) (f : FrameDescription) (w : World) :
  heap w !! l = Some (OList ls) ->
  exists x w',
    (let* fresh_frame := Mon.alloc (OFrame f) in Mon.append l fresh_frame) w = (Ok tt, w')
    /\ tick w' = tick w /\ slept w' = slept w
    /\ heap w !! x = None
    /\ heap w' !! l = Some (OList (ls ++ [x]))
    /\ heap w' !! x = Some (OFrame f)
    /\ agree_off l (heap w) (heap w')
    /\ dom (heap w) ⊆ dom (heap w').
Proof.
  intros Hl. pose proof (fresh_unused (heap w)) as Hfresh.
  set (x := fresh (dom (heap w))) in *.
  assert (Hne : x <> l) by (intros ->; congruence).
  exists x. eexists. unfold Mon.bind, Mon.alloc, Mon.append. fold x. simpl.
  rewrite lookup_insert_ne, Hl by assumption.
  split; [reflexivity|]. simpl.
  repeat split; try assumption.
  - now rewrite lookup_insert_eq.
  - rewrite lookup_insert_ne by congruence. now rewrite lookup_insert_eq.
  - intros y Hy o Ho. rewrite lookup_insert_ne by congruence.
    rewrite lookup_insert_ne; [assumption | intros ->; congruence].
  - rewrite !dom_insert. set_solver.
Qed.

(** One turn of the parsing loop on objects. *)
Lemma store_refined_line_run (rf : loc) (line : string) (w : World) (ls : list loc) :
  heap w !! rf = Some (OList ls) ->
  exists w' new,
    Store.refined_line rf tt line w = (Ok tt, w')
    /\ tick w' = tick w /\ slept w' = slept w
    /\ heap w' !! rf = Some (OList (ls ++ new))
    /\ holds (heap w') new (option_list (parsed_frame line))
    /\ agree_off rf (heap w) (heap w')
    /\ Forall (fun x => heap w !! x = None) new
    /\ dom (heap w) ⊆ dom (heap w').
Proof.
  intros Hrf.
  assert (Hskip : exists w' new,
             Mon.ret tt w = (Ok tt, w')
             /\ tick w' = tick w /\ slept w' = slept w
             /\ heap w' !! rf = Some (OList (ls ++ new))
             /\ holds (heap w') new []
             /\ agree_off rf (heap w) (heap w')
             /\ Forall (fun x => heap w !! x = None) new
             /\ dom (heap w) ⊆ dom (heap w')).
  { exists w, []. rewrite app_nil_r. repeat split; try assumption; try constructor.
    - intros x _ o Ho. exact Ho.
    - intros x Hx. exact Hx. }
  unfold Store.refined_line, parsed_frame, number_text, segment_before, segment_after, split1.
  destruct (startswith (strip line) "Frame") eqn:Hs.
  2:{ rewrite andb_false_r. exact Hskip. }
  rewrite (startswith_truthy _ "Frame" eq_refl Hs). simpl andb.
  rewrite cut_contains.
  destruct (cut ":" (strip line)) as [[pre post]|]; [|exact Hskip].
  rewrite parse_int_result.
  destruct (PyInt.parse _) as [n|].
  2:{ unfold Mon.try_except, Mon.bind, Mon.lift. exact Hskip. }
  destruct (alloc_append_run rf ls (mkFrame (strip post) n) w Hrf)
    as (x & w' & Hrun & Ht & Hsl & Hx & Hrf' & Hx' & Hag & Hdom).
  exists w', [x]. unfold Mon.try_except. unfold Mon.bind at 1. unfold Mon.lift.
  cbn [andb]. cbv beta iota. rewrite Hrun.
  repeat split; try assumption.
  - constructor; [exact Hx' | constructor].
  - constructor; [exact Hx | constructor].
Qed.

(** The parsing loop on objects: it allocates one object per qualifying
    line and touches no object but the list it builds. *)
Lemma store_parse_loop (rf : loc) (lines : list string) :
  forall (w : World) (ls : list loc),
    heap w !! rf = Some (OList ls) ->
    exists w' new,
      for_each (Store.refined_line rf) tt lines w = (Ok tt, w')
      /\ tick w' = tick w /\ slept w' = slept w
      /\ heap w' !! rf = Some (OList (ls ++ new))
      /\ holds (heap w') new (omap parsed_frame lines)
      /\ agree_off rf (heap w) (heap w')
      /\ Forall (fun x => heap w !! x = None) new
      /\ dom (heap w) ⊆ dom (heap w').
Proof.
  induction lines as [|line lines IH]; intros w ls Hrf.
  - exists w, []. rewrite app_nil_r. repeat split; try assumption; try constructor.
    + intros x _ o Ho. exact Ho.
    + intros x Hx. exact Hx.
  - destruct (store_refined_line_run rf line w ls Hrf)
      as (w1 & new1 & Hrun1 & Ht1 & Hs1 & Hrf1 & Hh1 & Hag1 & Hfr1 & Hdom1).
    destruct (IH w1 (ls ++ new1) Hrf1)
      as (w2 & new2 & Hrun2 & Ht2 & Hs2 & Hrf2 & Hh2 & Hag2 & Hfr2 & Hdom2).
    exists w2, (new1 ++ new2). simpl for_each.
    rewrite (bind_ok _ _ _ _ _ Hrun1), Hrun2.
    split; [reflexivity|]. split; [congruence|]. split; [congruence|].
    split; [now rewrite app_assoc|].
    split; [|split; [|split]].
    + cbn [omap list_omap]. fold (omap parsed_frame lines).
      replace (match parsed_frame line with
               | Some y => y :: omap parsed_frame lines
               | None => omap parsed_frame lines
               end) with (option_list (parsed_frame line) ++ omap parsed_frame lines)
        by (now destruct (parsed_frame line)).
      apply Forall2_app; [|exact Hh2].
      exact (holds_agree rf (heap w1) (heap w2) _ _ _ Hrf1 Hag2 Hh1).
    + intros x Hx o Ho. apply Hag2; [exact Hx|]. now apply Hag1.
    + apply Forall_app. split; [exact Hfr1|].
      eapply Forall_impl; [exact Hfr2|]. intros x Hx. simpl in Hx.
      exact (unused_mono _ _ x Hdom1 Hx).
    + etransitivity; eassumption.
Qed.

(** One turn of the reconciliation loop on objects: a new object when
    the mapping has the number, the original reference when it has not. *)
Lemma store_reconcile_one_run (m : gmap Z string) (res : loc) (original : loc)
    (f : FrameDescription) (w : World) (ls : list loc) :
  heap w !! res = Some (OList ls) ->
  heap w !! original = Some (OFrame f) ->
  exists w' x,
    Store.reconcile_one m res tt original w = (Ok tt, w')
    /\ tick w' = tick w /\ slept w' = slept w
    /\ heap w' !! res = Some (OList (ls ++ [x]))
    /\ heap w' !! x = Some (OFrame (match m !! frame_number f with
                                     | Some d => mkFrame d (frame_number f)
                                     | None => f
                                     end))
    /\ agree_off res (heap w) (heap w')
    /\ (x = original \/ heap w !! x = None)
    /\ dom (heap w) ⊆ dom (heap w').
Proof.
  intros Hres Horig. unfold Store.reconcile_one.
  unfold Mon.bind at 1. unfold Mon.get_frame. rewrite Horig.
  destruct (m !! frame_number f) as [d|].
  - destruct (alloc_append_run res ls (mkFrame d (frame_number f)) w Hres)
      as (x & w' & Hrun & Ht & Hsl & Hx & Hres' & Hx' & Hag & Hdom).
    exists w', x. rewrite Hrun. repeat split; auto.
  - assert (Hne : original <> res) by (intros ->; congruence).
    exists (mkWorld (tick w) (slept w) (<[res := OList (ls ++ [original])]> (heap w))), original.
    unfold Mon.append. rewrite Hres. simpl.
    repeat split; auto.
    + now rewrite lookup_insert_eq.
    + now rewrite lookup_insert_ne by congruence.
    + intros y Hy o Ho. now rewrite lookup_insert_ne by congruence.
    + rewrite dom_insert. set_solver.
Qed.

Lemma store_reconcile_loop (m : gmap Z string) (res : loc) (originals : list loc)
    (fs : list FrameDescription) :
  forall (w : World) (ls : list loc),
    holds (heap w) originals fs ->
    heap w !! res = Some (OList ls) ->
    exists w' new,
      for_each (Store.reconcile_one m res) tt originals w = (Ok tt, w')
      /\ tick w' = tick w /\ slept w' = slept w
      /\ heap w' !! res = Some (OList (ls ++ new))
      /\ holds (heap w') new
           (map (fun f => match m !! frame_number f with
                          | Some d => mkFrame d (frame_number f)
                          | None => f
                          end) fs)
      /\ agree_off res (heap w) (heap w')
      /\ Forall2 (fun x o => x = o \/ heap w !! x = None) new originals
      /\ dom (heap w) ⊆ dom (heap w').
Proof.
  revert fs. induction originals as [|original originals IH]; intros fs w ls Hh Hres.
  - apply Forall2_nil_inv_l in Hh as ->.
    exists w, []. rewrite app_nil_r. repeat split; try assumption; try constructor.
    + intros x _ o Ho. exact Ho.
    + intros x Hx. exact Hx.
  - apply Forall2_cons_inv_l in Hh as (f & fs' & Horig & Hh & ->).
    destruct (store_reconcile_one_run m res original f w ls Hres Horig)
      as (w1 & x & Hrun1 & Ht1 & Hs1 & Hres1 & Hx1 & Hag1 & Hprov1 & Hdom1).
    assert (Hh1 : holds (heap w1) originals fs')
      by exact (holds_agree res (heap w) (heap w1) _ _ _ Hres Hag1 Hh).
    destruct (IH fs' w1 (ls ++ [x]) Hh1 Hres1)
      as (w2 & new & Hrun2 & Ht2 & Hs2 & Hres2 & Hh2 & Hag2 & Hprov2 & Hdom2).
    exists w2, (x :: new). simpl for_each.
    rewrite (bind_ok _ _ _ _ _ Hrun1), Hrun2.
    split; [reflexivity|]. split; [congruence|]. split; [congruence|].
    split; [now rewrite <- app_assoc in Hres2|].
    split; [|split; [|split]].
    + simpl. constructor; [|exact Hh2].
      apply Hag2; [|exact Hx1]. intros ->. congruence.
    + intros y Hy o Ho. apply Hag2; [exact Hy|]. now apply Hag1.
    + constructor; [exact Hprov1|].
      eapply Forall2_impl; [exact Hprov2|]. intros y o [->|Hy]; [now left | right].
      exact (unused_mono _ _ y Hdom1 Hy).
    + etransitivity; eassumption.
Qed.

End StoreFacts.

Section StoreRefine.
Context `{Services}.
Import PyStr LLMService Spec Store.

Lemma fresh_for_all (h : gmap loc obj) (new originals : list loc) :
  length new = length originals ->
  Forall (fun x => h !! x = None) new ->
  Forall2 (fun x o => x = o \/ h !! x = None) new originals.
Proof.
  intros Hlen Hnew. revert originals Hlen.
  induction Hnew as [|x new Hx _ IH]; intros [|o originals] Hlen;
    try discriminate; constructor; auto.
Qed.

(** What the method does with a reply, on objects: the objects that were
    there stay as they were, and the returned list is a new object whose
    items stand for what [reconcile] computes on values. *)
Lemma read_reply_run (frames : loc) (originals : list loc)
    (fs : list FrameDescription) (response : string) (w : World) :
  heap w !! frames = Some (OList originals) ->
  holds (heap w) originals fs ->
  exists out items w',
    read_reply frames response w = (Ok out, w')
    /\ tick w' = tick w /\ slept w' = slept w
    /\ heap w ⊆ heap w'
    /\ heap w !! out = None
    /\ heap w' !! out = Some (OList items)
    /\ holds (heap w') items
         (reconcile (omap parsed_frame (split nl (strip response))) fs)
    /\ Forall2 (fun x o => x = o \/ heap w !! x = None) items originals.
Proof.
  intros Hfr Hh. set (parsed := omap parsed_frame (split nl (strip response))).
  (* refined_frames = [] *)
  pose proof (fresh_unused (heap w)) as Hrf.
  set (rf := fresh (dom (heap w))) in *.
  set (w2 := mkWorld (tick w) (slept w) (<[rf := OList []]> (heap w))).
  assert (Hsub2 : heap w ⊆ heap w2) by (now apply insert_subseteq).
  assert (Hdom2 : dom (heap w) ⊆ dom (heap w2)) by (now apply subseteq_dom).
  assert (Hrf2 : heap w2 !! rf = Some (OList [])) by apply lookup_insert_eq.
  (* the parsing loop *)
  destruct (store_parse_loop rf (split nl (strip response)) w2 [] Hrf2)
    as (w3 & new & Hloop & Ht3 & Hs3 & Hrf3 & Hh3 & Hag3 & Hfresh3 & Hdom3).
  fold parsed in Hh3. simpl app in Hrf3.
  assert (Hne : frames <> rf) by (intros E; rewrite E in Hfr; congruence).
  assert (Hfr3 : heap w3 !! frames = Some (OList originals)).
  { apply Hag3; [exact Hne|]. exact (lookup_weaken _ _ _ _ Hfr Hsub2). }
  assert (Hkeep3 : forall x o, heap w !! x = Some o -> heap w3 !! x = Some o).
  { intros x o Hx. apply Hag3; [intros E; rewrite E in Hx; congruence|].
    exact (lookup_weaken _ _ _ _ Hx Hsub2). }
  assert (Hh3' : holds (heap w3) originals fs).
  { unfold holds in *. eapply Forall2_impl; [exact Hh|]. intros x f Hx. now apply Hkeep3. }
  assert (Hlen_new : length new = length parsed) by exact (Forall2_length _ _ _ Hh3).
  assert (Hlen_orig : length originals = length fs) by exact (Forall2_length _ _ _ Hh).
  unfold read_reply.
  rewrite (bind_ok (Mon.alloc (OList [])) _ w rf w2 eq_refl).
  rewrite (bind_ok _ _ _ _ _ Hloop).
  rewrite (bind_ok _ _ _ _ _ (len_run rf new w3 Hrf3)).
  rewrite (bind_ok _ _ _ _ _ (len_run frames originals w3 Hfr3)).
  rewrite reconcile_eq.
  destruct (Nat.eqb_spec (length new) (length originals)) as [Hlen|Hlen]; cbn [negb].
  - (* the counts agree: the parsed list is returned *)
    rewrite decide_True by congruence.
    exists rf, new, w3. split; [reflexivity|].
    split; [rewrite Ht3; reflexivity|]. split; [rewrite Hs3; reflexivity|].
    split; [apply map_subseteq_spec; exact Hkeep3|].
    split; [exact Hrf|]. split; [exact Hrf3|]. split; [exact Hh3|].
    apply fresh_for_all; [exact Hlen|].
    eapply Forall_impl; [exact Hfresh3|]. intros x Hx. exact (unused_mono _ _ x Hdom2 Hx).
  - (* the counts differ: reconciliation *)
    rewrite decide_False by congruence.
    assert (Hparsed : is_frames (heap w3) rf parsed) by (exists new; auto).
    rewrite (bind_ok _ _ _ _ _ (read_all_run (fun f => f) rf parsed w3 Hparsed)).
    rewrite map_id.
    pose proof (fresh_unused (heap w3)) as Hres.
    set (res := fresh (dom (heap w3))) in *.
    set (w4 := mkWorld (tick w3) (slept w3) (<[res := OList []]> (heap w3))).
    assert (Hsub4 : heap w3 ⊆ heap w4) by (now apply insert_subseteq).
    assert (Hdom4 : dom (heap w3) ⊆ dom (heap w4)) by (now apply subseteq_dom).
    assert (Hres4 : heap w4 !! res = Some (OList [])) by apply lookup_insert_eq.
    assert (Hfr4 : heap w4 !! frames = Some (OList originals))
      by exact (lookup_weaken _ _ _ _ Hfr3 Hsub4).
    assert (Hh4 : holds (heap w4) originals fs) by exact (holds_weaken _ _ _ _ Hsub4 Hh3').
    destruct (store_reconcile_loop (refined_map_of parsed) res originals fs w4 [] Hh4 Hres4)
      as (w5 & items & Hloop5 & Ht5 & Hs5 & Hres5 & Hh5 & Hag5 & Hprov5 & Hdom5).
    simpl app in Hres5.
    rewrite (bind_ok (Mon.alloc (OList [])) _ w3 res w4 eq_refl).
    unfold Mon.bind at 1. unfold Mon.get_list. rewrite Hfr4.
    rewrite (bind_ok _ _ _ _ _ Hloop5).
    exists res, items, w5. split; [reflexivity|].
    split; [rewrite Ht5; simpl; rewrite Ht3; reflexivity|].
    split; [rewrite Hs5; simpl; rewrite Hs3; reflexivity|].
    split.
    { apply map_subseteq_spec. intros x o Hx.
      apply Hag5; [|exact (lookup_weaken _ _ _ _ (Hkeep3 x o Hx) Hsub4)].
      intros E. rewrite E in Hx. apply Hkeep3 in Hx. congruence. }
    split; [exact (unused_mono _ _ res (transitivity Hdom2 Hdom3) Hres)|].
    split; [exact Hres5|].
    split.
    { replace (map (reconciled parsed) fs)
        with (map (fun f => match refined_map_of parsed !! frame_number f with
                            | Some d => mkFrame d (frame_number f)
                            | None => f
                            end) fs); [exact Hh5|].
      apply map_ext. intros f. unfold reconciled. now rewrite refined_map_of_lookup. }
    eapply Forall2_impl; [exact Hprov5|]. intros x o [->|Hx]; [now left | right].
    exact (unused_mono _ _ x (transitivity Hdom2 (transitivity Hdom3 Hdom4)) Hx).
Qed.

End StoreRefine.

Section StoreClaim.
Import PyStr LLMService Spec Store.

(** C10.  [refine_frame_sequence] run on objects, on a list of frames:
    the method ends; every object that existed before the call is in
    the final heap as it was, so the input list still holds the same
    references and every [FrameDescription] of the input still holds the
    same description and number; when the completion call fails, the
    method fails as it does on values; and when it returns, it returns a
    list object that did not exist before, whose items stand for the
    frames the method computes on values, each item being either the
    original reference at that position, passed through, or an object
    that did not exist before. *)
Theorem refine_leaves_input_unchanged `{Services}
    (frames : loc) (fs : list FrameDescription) (prompt : string) (w : World) :
  is_frames (heap w) frames fs ->
  exists r w',
    Store.refine_frame_sequence frames prompt w = (r, w')
    /\ heap w ⊆ heap w'
    /\ is_frames (heap w') frames fs
    /\ tick w' = tick (snd (LLMService.refine_frame_sequence fs prompt w))
    /\ slept w' = slept (snd (LLMService.refine_frame_sequence fs prompt w))
    /\ match fst (LLMService.refine_frame_sequence fs prompt w) with
       | Ok out_v =>
           exists out items originals,
             r = Ok out
             /\ heap w !! out = None
             /\ heap w !! frames = Some (OList originals)
             /\ heap w' !! out = Some (OList items)
             /\ holds (heap w') items out_v
             /\ Forall2 (fun x o => x = o \/ heap w !! x = None) items originals
       | Raise e => r = Raise e
       end.
Proof.
  intros Hfs. pose proof Hfs as (originals & Hfr & Hh).
  unfold Store.refine_frame_sequence.
  rewrite (bind_ok _ _ _ _ _ (read_all_run render_frame frames fs w Hfs)).
  fold (frames_text fs). rewrite refine_run.
  unfold Mon.bind. rewrite call_llm_run.
  destruct (match requests_post (tick w) _ with Ok _ => _ | Raise e => Raise e end)
    as [reply|e].
  - destruct (read_reply_run frames originals fs reply (after_call w) Hfr Hh)
      as (out & items & w' & Hrun & Ht & Hs & Hsub & Hout & Hout' & Hitems & Hprov).
    exists (Ok out), w'. rewrite Hrun. simpl.
    split; [reflexivity|]. split; [exact Hsub|].
    split. { exists originals. split; [exact (lookup_weaken _ _ _ _ Hfr Hsub)|].
             exact (holds_weaken _ _ _ _ Hsub Hh). }
    split; [exact Ht|]. split; [exact Hs|].
    exists out, items, originals. auto 10.
  - exists (Raise e), (after_call w). simpl. auto 10.
Qed.

Lemma refine_leaves_input_unchanged_witness :
  exists r w',
    Store.refine_frame_sequence
      (H := Demo.echo (Demo.lines ["Frame 1: p"; "Frame 2: X"; "Frame 3: q"; "Frame 1: pp"]))
      4%positive "cat" (mkWorld 0 0 Demo.heap_135) = (r, w')
    /\ is_frames (heap w') 4%positive Demo.frames_135.
Proof.
  destruct (refine_leaves_input_unchanged
              (H := Demo.echo (Demo.lines ["Frame 1: p"; "Frame 2: X"; "Frame 3: q";
                                           "Frame 1: pp"]))
              4%positive Demo.frames_135 "cat" (mkWorld 0 0 Demo.heap_135))
    as (r & w' & Hrun & _ & Hfr & _).
  - exists [1%positive; 2%positive; 3%positive]. split; [reflexivity|].
    repeat constructor.
  - exists r, w'. split; [exact Hrun | exact Hfr].
Defined.

End StoreClaim.

(* ================================================================== *)
(** * Generation: the draft pass and the structured fallback *)
(* ================================================================== *)

Section Generation.
Import PyStr LLMService Spec.

Lemma one_to_succ (n : nat) : one_to (S n) = one_to n ++ [Z.of_nat n + 1].
Proof. unfold one_to. now rewrite seq_S, map_app. Qed.

Lemma numbered_snoc (frames : list FrameDescription) (d : string) :
  map frame_number frames = one_to (length frames) ->
  map frame_number (frames ++ [mkFrame d (Z.of_nat (length frames) + 1)])
  = one_to (length (frames ++ [mkFrame d (Z.of_nat (length frames) + 1)])).
Proof.
  intros Hn. rewrite map_app, length_app, Hn. simpl length.
  rewrite Nat.add_1_r, one_to_succ. reflexivity.
Qed.

(** The draft pass numbers the lines it accepts 1, 2, 3, ... whatever
    number they show. *)
Lemma draft_loop_numbered (lines : list string) :
  forall frames,
    map frame_number frames = one_to (length frames) ->
    exists frames',
      for_each_pure draft_line (frames, Z.of_nat (length frames) + 1) lines
      = Ok (frames', Z.of_nat (length frames') + 1)
      /\ map frame_number frames' = one_to (length frames').
Proof.
  induction lines as [|line lines IH]; intros frames Hn; simpl.
  - eauto.
  - destruct (accepts (strip line) _).
    + simpl. specialize (IH _ (numbered_snoc frames
                                 (if contains ":" (strip line)
                                  then after_colon (strip line)
                                  else after_dot (strip line)) Hn)).
      rewrite length_app in IH. simpl length in IH.
      replace (Z.of_nat (length frames + 1) + 1) with (Z.of_nat (length frames) + 1 + 1)
        in IH by lia.
      exact IH.
    + simpl. apply IH, Hn.
Qed.

Lemma parse_draft_numbered (response : string) :
  exists frames,
    parse_draft response = Ok frames
    /\ map frame_number frames = one_to (length frames).
Proof.
  unfold parse_draft.
  destruct (draft_loop_numbered (split nl (strip response)) [] eq_refl)
    as (frames & Hrun & Hn).
  change (Z.of_nat (length (@nil FrameDescription)) + 1) with 1 in Hrun.
  rewrite Hrun. simpl. eauto.
Qed.

(** The [while] loop of the fallback ends with the frames that were
    missing, numbered after the ones it found. *)
Lemma pad_loop_spec (prompt : string) (num_frames : Z) (fuel : nat) :
  forall frames,
    fuel = Z.to_nat (num_frames - Z.of_nat (length frames)) ->
    Z.of_nat (length frames) <= num_frames ->
    Z.of_nat (length (pad_loop fuel prompt num_frames frames)) = num_frames
    /\ (map frame_number frames = one_to (length frames) ->
        map frame_number (pad_loop fuel prompt num_frames frames)
        = one_to (Z.to_nat num_frames)).
Proof.
  induction fuel as [|fuel IH]; intros frames Hfuel Hle; simpl.
  - split; [lia|]. intros Hn. rewrite Hn. f_equal. lia.
  - destruct (Z.ltb_spec (Z.of_nat (length frames)) num_frames) as [Hlt|Hge]; [|lia].
    destruct (IH (frames ++ [placeholder prompt (Z.of_nat (length frames) + 1)]))
      as [Hlen Hnum].
    + rewrite length_app. simpl. lia.
    + rewrite length_app. simpl. lia.
    + split; [exact Hlen|]. intros Hn. apply Hnum.
      exact (numbered_snoc frames _ Hn).
Qed.

(** The loop has left when the fuel is spent: its condition is false. *)
Lemma pad_loop_done (prompt : string) (num_frames : Z) (frames : list FrameDescription) :
  let out := pad_loop (Z.to_nat (num_frames - Z.of_nat (length frames)))
                      prompt num_frames frames in
  (Z.of_nat (length out) <? num_frames) = false.
Proof.
  simpl. apply Z.ltb_ge.
  remember (Z.to_nat (num_frames - Z.of_nat (length frames))) as fuel eqn:Hfuel.
  revert frames Hfuel. induction fuel as [|fuel IH]; intros frames Hfuel; simpl.
  - lia.
  - destruct (Z.ltb_spec (Z.of_nat (length frames)) num_frames); [|lia].
    apply IH. rewrite length_app. simpl. lia.
Qed.

Lemma structured_loop_bound (num_frames : Z) (lines : list string) :
  forall frames i,
    (length frames <= i)%nat ->
    Z.of_nat (length frames) <= Z.max 0 num_frames ->
    Z.of_nat (length (structured_loop num_frames frames i lines)) <= Z.max 0 num_frames.
Proof.
  induction lines as [|line lines IH]; intros frames i Hi Hn; simpl; [exact Hn|].
  apply IH; unfold structured_line;
    destruct (truthy (strip line) && (Z.of_nat i <? num_frames)) eqn:E;
    try rewrite length_app; simpl; lia.
Qed.

(** The structured fallback returns exactly [num_frames] frames. *)
Lemma parse_structured_length (prompt : string) (num_frames : Z) (response : string) :
  0 <= num_frames ->
  Z.of_nat (length (parse_structured prompt num_frames response)) = num_frames.
Proof.
  intros Hn. unfold parse_structured.
  apply pad_loop_spec; [reflexivity|].
  pose proof (structured_loop_bound num_frames (split nl (strip response)) [] 0
                (Nat.le_refl _) ltac:(simpl; lia)).
  lia.
Qed.

Lemma structured_loop_numbered (num_frames : Z) (lines : list string) :
  forall frames i,
    length frames = i ->
    map frame_number frames = one_to (length frames) ->
    no_blank_in_first (Z.to_nat num_frames - i) lines = true ->
    map frame_number (structured_loop num_frames frames i lines)
    = one_to (length (structured_loop num_frames frames i lines)).
Proof.
  induction lines as [|line lines IH]; intros frames i Hi Hn Hnb; simpl; [exact Hn|].
  unfold structured_line.
  destruct (Z.ltb_spec (Z.of_nat i) num_frames) as [Hlt|Hge].
  - unfold no_blank_in_first in Hnb.
    replace (Z.to_nat num_frames - i)%nat with (S (Z.to_nat num_frames - S i)) in Hnb by lia.
    simpl in Hnb. apply andb_true_iff in Hnb as [Hline Hrest]. rewrite Hline. simpl andb.
    cbv iota. apply IH.
    + rewrite length_app. simpl. lia.
    + subst i. apply numbered_snoc, Hn.
    + exact Hrest.
  - rewrite andb_false_r.
    assert (Hstay : forall ls fs k, (Z.of_nat k >= num_frames) ->
               structured_loop num_frames fs k ls = fs).
    { induction ls as [|l ls IHls]; intros fs k Hk; simpl; [reflexivity|].
      unfold structured_line.
      destruct (Z.ltb_spec (Z.of_nat k) num_frames); [lia|].
      rewrite andb_false_r. apply IHls. lia. }
    rewrite Hstay by lia. exact Hn.
Qed.

(** Without a blank line among its first [num_frames] lines, the reply
    of the fallback is numbered 1..[num_frames]. *)
Lemma parse_structured_numbered (prompt : string) (num_frames : Z) (response : string) :
  0 <= num_frames ->
  no_blank_in_first (Z.to_nat num_frames) (split nl (strip response)) = true ->
  map frame_number (parse_structured prompt num_frames response)
  = one_to (Z.to_nat num_frames).
Proof.
  intros Hn Hnb. unfold parse_structured.
  apply pad_loop_spec; [reflexivity | |].
  - pose proof (structured_loop_bound num_frames (split nl (strip response)) [] 0
                  (Nat.le_refl _) ltac:(simpl; lia)). lia.
  - apply structured_loop_numbered; [reflexivity | reflexivity|].
    now rewrite Nat.sub_0_r.
Qed.

(** Whatever the two replies, [generate_frame_sequence] returns at least
    the number of frames asked for. *)
Lemma generate_at_least `{Services} (prompt : string) (num_frames : Z) w out w' :
  0 <= num_frames ->
  generate_frame_sequence prompt num_frames w = (Ok out, w') ->
  num_frames <= Z.of_nat (length out).
Proof.
  intros Hn. unfold generate_frame_sequence, Mon.bind.
  destruct (call_llm _ w) as [[reply|e] w1]; [|discriminate].
  destruct (parse_draft_numbered reply) as (frames & -> & _).
  destruct (Z.ltb_spec (Z.of_nat (length frames)) num_frames).
  - unfold generate_structured_frame_sequence, Mon.bind.
    destruct (call_llm _ w1) as [[reply2|e] w2]; [|discriminate].
    intros [= <- _]. rewrite parse_structured_length; lia.
  - intros [= <- _]. lia.
Qed.

(** The scenario of the specification: three well-formed lines for three
    frames. *)
Example generate_cat_wakes_up :
  generate_frame_sequence
    (H := Demo.echo (Demo.lines ["Frame 1: cat opens eyes"; "Frame 2: cat stretches";
                                 "Frame 3: cat meows"]))
    "a cat wakes up" 3 Demo.w0
  = (Ok [mkFrame "cat opens eyes" 1; mkFrame "cat stretches" 2; mkFrame "cat meows" 3],
     after_call Demo.w0).
Proof. vm_compute. reflexivity. Qed.

(** Two usable lines for four frames, twice: the fallback pads. *)
Example generate_pads_to_four :
  generate_frame_sequence
    (H := Demo.echo (Demo.lines ["Frame 1: a"; "Frame 2: b"])) "cat" 4 Demo.w0
  = (Ok [mkFrame "a" 1; mkFrame "b" 2;
         mkFrame "Continuation of the scene from cat" 3;
         mkFrame "Continuation of the scene from cat" 4],
     after_call (after_call Demo.w0)).
Proof. vm_compute. reflexivity. Qed.

(** The fallback reply [a], blank line, [b] for three frames, after a
    draft reply without a usable line. *)
Example generate_fallback_with_blank_line :
  generate_frame_sequence
    (H := Demo.two_replies "no frame here" (Demo.lines ["a"; EmptyString; "b"]))
    "cat" 3 Demo.w0
  = (Ok [mkFrame "a" 1; mkFrame "b" 3; mkFrame "Continuation of the scene from cat" 3],
     after_call (after_call Demo.w0)).
Proof. vm_compute. reflexivity. Qed.

(** C2 (the code departs from it).  One frame is asked for and the reply
    has two lines that start with [Frame]: the draft pass accepts both,
    two is not less than one, and two frames are returned. *)
Theorem generate_returns_every_accepted_line :
  exists out,
    generate_frame_sequence
      (H := Demo.echo (Demo.lines ["Frame 1: a"; "Frame 2: b"])) "cat" 1 Demo.w0
    = (Ok out, after_call Demo.w0)
    /\ out = [mkFrame "a" 1; mkFrame "b" 2]
    /\ length out <> 1%nat.
Proof. eexists. split; [vm_compute; reflexivity|]. split; [reflexivity | discriminate]. Qed.

(** C3 (the code departs from it).  Three frames are asked for and the
    reply of the fallback is [a], a blank line, [b]: the line [b] gets
    the number 3 of its position among all the lines, not the number 2
    of its position among the lines taken, and the placeholder that
    fills the gap gets the number 3 again. *)
Theorem structured_numbers_by_line_index :
  parse_structured "cat" 3 (Demo.lines ["a"; EmptyString; "b"])
  = [mkFrame "a" 1; mkFrame "b" 3; mkFrame "Continuation of the scene from cat" 3]
  /\ generate_structured_frame_sequence
       (H := Demo.echo (Demo.lines ["a"; EmptyString; "b"])) "cat" 3 Demo.w0
     = (Ok [mkFrame "a" 1; mkFrame "b" 3; mkFrame "Continuation of the scene from cat" 3],
        after_call Demo.w0)
  /\ map frame_number
       [mkFrame "a" 1; mkFrame "b" 3; mkFrame "Continuation of the scene from cat" 3]
     <> one_to 3.
Proof. split; [vm_compute; reflexivity|]. split; [vm_compute; reflexivity | discriminate]. Qed.

End Generation.

(* ================================================================== *)
(** * More facts about trimming and splitting *)
(* ================================================================== *)

Section TrimFacts.
Import PyStr.

Lemma lstrip_head (s : string) :
  lstrip s = EmptyString \/ exists c r, lstrip s = String c r /\ isspace c = false.
Proof.
  induction s as [|x s IH]; simpl; [now left|].
  destruct (isspace x) eqn:Hx; [exact IH | right; eauto].
Qed.

(** Trimming twice is trimming once. *)
Lemma strip_idem (s : string) : strip (strip s) = strip s.
Proof.
  unfold strip. destruct (lstrip_head s) as [-> | (c & r & -> & Hc)]; [reflexivity|].
  destruct (rstrip_head c r Hc) as [r' Hr]. rewrite Hr.
  simpl lstrip. rewrite Hc. rewrite <- Hr. apply rstrip_idem.
Qed.

Lemma lstrip_no_sep (c : ascii) (s : string) :
  contains c s = false -> contains c (lstrip s) = false.
Proof.
  induction s as [|x s IH]; simpl; [reflexivity|].
  destruct (Ascii.eqb x c) eqn:Hx; [discriminate|]. intros Hs.
  destruct (isspace x); [auto | simpl; now rewrite Hx].
Qed.

Lemma strip_no_sep (c : ascii) (s : string) :
  contains c s = false -> contains c (strip s) = false.
Proof. intros Hs. apply rstrip_no_sep, lstrip_no_sep, Hs. Qed.

(** No piece of a split holds the separator. *)
Lemma split_pieces (c : ascii) (s : string) :
  Forall (fun piece => contains c piece = false) (split c s).
Proof.
  induction s as [|x s IH]; simpl; [repeat constructor|].
  destruct (Ascii.eqb x c) eqn:Hx; [constructor; [reflexivity | exact IH]|].
  destruct (split c s) as [|h t]; [repeat constructor; simpl; now rewrite Hx|].
  apply Forall_cons in IH as [Hh Ht].
  constructor; [simpl; now rewrite Hx | exact Ht].
Qed.

Lemma split_nonempty (c : ascii) (s : string) : split c s <> [].
Proof.
  destruct s as [|x s]; simpl; [discriminate|].
  destruct (Ascii.eqb x c); [discriminate|]. now destruct (split c s).
Qed.

Lemma cut_pieces (sep c : ascii) (s pre post : string) :
  cut sep s = Some (pre, post) -> contains c s = false ->
  contains c pre = false /\ contains c post = false.
Proof.
  revert pre post. induction s as [|x s IH]; intros pre post; simpl; [discriminate|].
  destruct (Ascii.eqb x c) eqn:Hx; [discriminate|].
  destruct (Ascii.eqb x sep).
  - intros [= <- <-] Hs. now split.
  - destruct (cut sep s) as [[pre' post']|]; [|discriminate].
    intros [= <- <-] Hs. destruct (IH pre' post' eq_refl Hs) as [Hpre Hpost].
    split; [simpl; now rewrite Hx | exact Hpost].
Qed.

Lemma last_split1_no_sep (sep c : ascii) (s : string) :
  contains c s = false -> contains c (last_item (split1 sep s) s) = false.
Proof.
  intros Hs. unfold split1, last_item.
  destruct (cut sep s) as [[pre post]|] eqn:E; simpl; [|exact Hs].
  exact (proj2 (cut_pieces sep c s pre post E Hs)).
Qed.

End TrimFacts.

(* ================================================================== *)
(** * More on refinement *)
(* ================================================================== *)

Section RefineMore.
Import PyStr LLMService Spec.

(** X1.  Whatever the reply holds, the sequence [refine_frame_sequence]
    returns has as many frames as the input. *)
Theorem refine_keeps_count `{Services}
    (frames : list FrameDescription) (prompt : string) (w w' : World)
    (out : list FrameDescription) :
  refine_frame_sequence frames prompt w = (Ok out, w') ->
  length out = length frames.
Proof.
  rewrite refine_run. destruct (call_llm _ w) as [[reply|e] w1]; [|discriminate].
  intros [= <- _]. apply reconcile_length.
Qed.

Lemma refine_keeps_count_witness :
  length [mkFrame "p" 1; mkFrame "the cat wakes" 3; mkFrame "the cat leaves" 5]
  = length Demo.frames_135.
Proof.
  apply (refine_keeps_count (H := Demo.echo (Demo.lines ["Frame 1: p"; "Frame 9: z"]))
           Demo.frames_135 "cat" Demo.w0 (after_call Demo.w0)).
  vm_compute. reflexivity.
Defined.

Lemma omap_none {A B} (g : A -> option B) (l : list A) :
  Forall (fun x => g x = None) l -> omap g l = [].
Proof.
  induction 1 as [|x l Hx _ IH]; [reflexivity|].
  cbn [omap list_omap]. rewrite Hx. exact IH.
Qed.

Lemma reconcile_nothing (frames : list FrameDescription) : reconcile [] frames = frames.
Proof.
  rewrite reconcile_eq. case_decide as Hlen.
  - destruct frames; [reflexivity | discriminate].
  - rewrite <- (map_id frames) at 2. apply map_ext. intros f. reflexivity.
Qed.

(** X2.  A reply without a single qualifying line (an empty reply, an
    apology, lines that do not start with [Frame]) leaves the frames as
    they are: [refine_frame_sequence] returns its input. *)
Theorem refine_returns_input_on_unusable_reply `{Services}
    (frames : list FrameDescription) (prompt reply : string) (w w' : World) :
  call_llm (refine_messages (frames_text frames) prompt) w = (Ok reply, w') ->
  Forall (fun line => ~ qualifies line) (split nl (strip reply)) ->
  refine_frame_sequence frames prompt w = (Ok frames, w').
Proof.
  intros Hcall Hnone. rewrite refine_run, Hcall.
  rewrite omap_none; [now rewrite reconcile_nothing|].
  eapply Forall_impl; [exact Hnone|]. intros line Hline. simpl in Hline.
  destruct (parsed_frame line) eqn:E; [|reflexivity].
  exfalso. apply Hline, parsed_frame_qualifies. eauto.
Qed.

Lemma refine_returns_input_on_unusable_reply_witness :
  refine_frame_sequence (H := Demo.echo "Sorry, I cannot help with that.")
    Demo.frames_135 "cat" Demo.w0
  = (Ok Demo.frames_135, after_call Demo.w0).
Proof.
  apply (refine_returns_input_on_unusable_reply
           (H := Demo.echo "Sorry, I cannot help with that.")
           Demo.frames_135 "cat" "Sorry, I cannot help with that.").
  - vm_compute. reflexivity.
  - constructor; [|constructor]. intros (Hstart & _). vm_compute in Hstart. discriminate.
Defined.

End RefineMore.

(* ================================================================== *)
(** * More on generation *)
(* ================================================================== *)

Section GenerationMore.
Import PyStr LLMService Spec Notions.

Lemma structured_run `{Services} (prompt : string) (num_frames : Z) (w : World) :
  generate_structured_frame_sequence prompt num_frames w =
  match call_llm (structured_messages prompt num_frames) w with
  | (Ok reply, w1) => (Ok (parse_structured prompt num_frames reply), w1)
  | (Raise e, w1) => (Raise e, w1)
  end.
Proof.
  unfold generate_structured_frame_sequence, Mon.bind.
  now destruct (call_llm _ w) as [[reply|e] w1].
Qed.

Lemma generate_run `{Services} (prompt : string) (num_frames : Z) (w : World) :
  generate_frame_sequence prompt num_frames w =
  match call_llm (generate_messages prompt num_frames) w with
  | (Ok reply, w1) =>
      match parse_draft reply with
      | Ok frames =>
          if Z.of_nat (length frames) <? num_frames
          then generate_structured_frame_sequence prompt num_frames w1
          else (Ok frames, w1)
      | Raise _ => generate_structured_frame_sequence prompt num_frames w1
      end
  | (Raise e, w1) => (Raise e, w1)
  end.
Proof.
  unfold generate_frame_sequence, Mon.bind.
  destruct (call_llm _ w) as [[reply|e] w1]; [|reflexivity].
  destruct (parse_draft reply); [|reflexivity].
  now destruct (_ <? _).
Qed.

(** The frames the [while] loop adds. *)
Lemma pad_loop_eq (prompt : string) (num_frames : Z) (fuel : nat) :
  forall frames,
    fuel = Z.to_nat (num_frames - Z.of_nat (length frames)) ->
    pad_loop fuel prompt num_frames frames
    = frames ++ placeholders prompt (length frames) fuel.
Proof.
  unfold placeholders.
  induction fuel as [|fuel IH]; intros frames Hfuel; simpl.
  - now rewrite app_nil_r.
  - destruct (Z.ltb_spec (Z.of_nat (length frames)) num_frames) as [Hlt|Hge]; [|lia].
    rewrite IH by (rewrite length_app; simpl; lia).
    rewrite length_app, Nat.add_1_r, <- app_assoc. reflexivity.
Qed.

Lemma parse_structured_eq (prompt : string) (num_frames : Z) (response : string) :
  let taken := structured_loop num_frames [] 0 (split nl (strip response)) in
  parse_structured prompt num_frames response
  = taken ++ placeholders prompt (length taken) (Z.to_nat num_frames - length taken)
  /\ (length taken <= Z.to_nat num_frames)%nat.
Proof.
  simpl. unfold parse_structured.
  pose proof (structured_loop_bound num_frames (split nl (strip response)) [] 0
                (Nat.le_refl _) ltac:(simpl; lia)) as Hbound.
  split; [|lia].
  rewrite pad_loop_eq by reflexivity. do 2 f_equal. lia.
Qed.

(** X3.  [generate_frame_sequence] never returns fewer frames than it was
    asked for. *)
Theorem generate_never_short `{Services}
    (prompt : string) (num_frames : Z) (w w' : World) (out : list FrameDescription) :
  generate_frame_sequence prompt num_frames w = (Ok out, w') ->
  num_frames <= Z.of_nat (length out).
Proof.
  intros Hrun. destruct (Z.le_gt_cases 0 num_frames) as [Hn|Hn]; [|lia].
  exact (generate_at_least prompt num_frames w out w' Hn Hrun).
Qed.

Lemma generate_never_short_witness :
  4 <= Z.of_nat (length [mkFrame "a" 1; mkFrame "b" 2;
                         mkFrame "Continuation of the scene from cat" 3;
                         mkFrame "Continuation of the scene from cat" 4]).
Proof.
  apply (generate_never_short (H := Demo.echo (Demo.lines ["Frame 1: a"; "Frame 2: b"]))
           "cat" 4 Demo.w0 (after_call (after_call Demo.w0))).
  vm_compute. reflexivity.
Defined.

(** X4.  When the draft reply has enough accepted lines, they are
    returned after a single completion call, numbered 1, 2, 3, ... in the
    order of the lines, whatever numbers the lines show. *)
Theorem generate_numbers_draft_by_position `{Services}
    (prompt reply : string) (num_frames : Z) (w w' : World)
    (frames : list FrameDescription) :
  call_llm (generate_messages prompt num_frames) w = (Ok reply, w') ->
  parse_draft reply = Ok frames ->
  num_frames <= Z.of_nat (length frames) ->
  generate_frame_sequence prompt num_frames w = (Ok frames, w')
  /\ map frame_number frames = one_to (length frames).
Proof.
  intros Hcall Hdraft Hlen. rewrite generate_run, Hcall, Hdraft.
  destruct (Z.ltb_spec (Z.of_nat (length frames)) num_frames); [lia|].
  split; [reflexivity|].
  destruct (parse_draft_numbered reply) as (frames' & Hdraft' & Hnum).
  rewrite Hdraft in Hdraft'. now injection Hdraft' as <-.
Qed.

Lemma generate_numbers_draft_by_position_witness :
  generate_frame_sequence (H := Demo.echo (Demo.lines ["Frame 7: x"; "Frame 9: y"]))
    "cat" 2 Demo.w0
  = (Ok [mkFrame "x" 1; mkFrame "y" 2], after_call Demo.w0)
  /\ map frame_number [mkFrame "x" 1; mkFrame "y" 2] = one_to 2.
Proof.
  apply (generate_numbers_draft_by_position
           (H := Demo.echo (Demo.lines ["Frame 7: x"; "Frame 9: y"]))
           "cat" (Demo.lines ["Frame 7: x"; "Frame 9: y"]) 2 Demo.w0).
  - vm_compute. reflexivity.
  - vm_compute. reflexivity.
  - simpl. lia.
Defined.

(** X5.  The structured fallback returns exactly the number of frames
    asked for, whatever the reply holds (and none when the number is
    zero or negative). *)
Theorem structured_returns_exactly `{Services}
    (prompt : string) (num_frames : Z) (w w' : World) (out : list FrameDescription) :
  generate_structured_frame_sequence prompt num_frames w = (Ok out, w') ->
  length out = Z.to_nat num_frames.
Proof.
  rewrite structured_run. destruct (call_llm _ w) as [[reply|e] w1]; [|discriminate].
  intros [= <- _].
  destruct (parse_structured_eq prompt num_frames reply) as [-> Hle].
  unfold placeholders. rewrite length_app, length_map, length_seq. lia.
Qed.

Lemma structured_returns_exactly_witness :
  length [mkFrame "a" 1; mkFrame "b" 3; mkFrame "Continuation of the scene from cat" 3]
  = Z.to_nat 3.
Proof.
  apply (structured_returns_exactly (H := Demo.echo (Demo.lines ["a"; EmptyString; "b"; "c"; "d"]))
           "cat" 3 Demo.w0 (after_call Demo.w0)).
  vm_compute. reflexivity.
Defined.

(** X6.  When none of the first [num_frames] lines of the fallback reply
    is blank, the frames of the fallback are numbered 1..[num_frames]
    without gap or repetition. *)
Theorem structured_numbers_contiguously `{Services}
    (prompt reply : string) (num_frames : Z) (w w' : World) :
  0 <= num_frames ->
  call_llm (structured_messages prompt num_frames) w = (Ok reply, w') ->
  no_blank_in_first (Z.to_nat num_frames) (split nl (strip reply)) = true ->
  exists out,
    generate_structured_frame_sequence prompt num_frames w = (Ok out, w')
    /\ map frame_number out = one_to (Z.to_nat num_frames).
Proof.
  intros Hn Hcall Hnb. rewrite structured_run, Hcall.
  eexists. split; [reflexivity|]. now apply parse_structured_numbered.
Qed.

Lemma structured_numbers_contiguously_witness :
  exists out,
    generate_structured_frame_sequence
      (H := Demo.echo (Demo.lines ["Frame 4: a"; "b"])) "cat" 3 Demo.w0
    = (Ok out, after_call Demo.w0)
    /\ map frame_number out = [1; 2; 3].
Proof.
  apply (structured_numbers_contiguously
           (H := Demo.echo (Demo.lines ["Frame 4: a"; "b"]))
           "cat" (Demo.lines ["Frame 4: a"; "b"]) 3 Demo.w0).
  - lia.
  - vm_compute. reflexivity.
  - reflexivity.
Defined.

Lemma after_colon_segment (line : string) :
  after_colon line = strip (segment_after ":" line).
Proof.
  unfold after_colon, last_item, split1, segment_after.
  now destruct (cut ":" line) as [[pre post]|].
Qed.

(** The frames the loop of lines 133-138 adds are those of the lines
    that are not blank among the lines at the positions below
    [num_frames]. *)
Lemma structured_loop_taken (num_frames : Z) (lines : list string) :
  forall (frames : list FrameDescription) (i : nat),
    structured_loop num_frames frames i lines
    = frames ++ omap id (imap (fun j => line_frame (i + j))
                              (firstn (Z.to_nat num_frames - i) lines)).
Proof.
  induction lines as [|line lines IH]; intros frames i.
  - rewrite firstn_nil. simpl. now rewrite app_nil_r.
  - cbn [structured_loop]. rewrite IH. unfold structured_line.
    destruct (Z.ltb_spec (Z.of_nat i) num_frames) as [Hlt|Hge].
    + replace (Z.to_nat num_frames - i)%nat with (S (Z.to_nat num_frames - S i)) by lia.
      rewrite firstn_cons, imap_cons. cbn [omap list_omap]. fold (omap (M := list) (@id (option FrameDescription))).
      rewrite Nat.add_0_r.
      rewrite (imap_ext (line_frame ∘ Nat.add i ∘ S) (fun j => line_frame (S i + j)))
        by (intros j x _; simpl; f_equal; lia).
      unfold line_frame at 2. rewrite after_colon_segment.
      destruct (truthy (strip line)); simpl.
      * now rewrite <- app_assoc.
      * reflexivity.
    + replace (Z.to_nat num_frames - i)%nat with 0%nat by lia.
      replace (Z.to_nat num_frames - S i)%nat with 0%nat by lia.
      rewrite andb_false_r. reflexivity.
Qed.

(** X7.  The fallback output is the frames taken from the reply followed
    by placeholders.  The frames taken are those of the lines that are
    not blank among the first [num_frames] lines of the trimmed reply,
    each with the trimmed text after its first colon (the whole trimmed
    line when it has none) and the number of the position of its line.
    Every frame after the taken ones has the description [Continuation
    of the scene from] followed by the prompt, and the number of its own
    position.  A blank reply gives placeholders only. *)
Theorem structured_pads_with_placeholders `{Services}
    (prompt reply : string) (num_frames : Z) (w w' : World) :
  call_llm (structured_messages prompt num_frames) w = (Ok reply, w') ->
  generate_structured_frame_sequence prompt num_frames w
  = (Ok (taken_frames num_frames (split nl (strip reply))
         ++ placeholders prompt
              (length (taken_frames num_frames (split nl (strip reply))))
              (Z.to_nat num_frames
               - length (taken_frames num_frames (split nl (strip reply))))),
     w')
  /\ (length (taken_frames num_frames (split nl (strip reply))) <= Z.to_nat num_frames)%nat
  /\ (forall i,
        (length (taken_frames num_frames (split nl (strip reply))) <= i
         < Z.to_nat num_frames)%nat ->
        (taken_frames num_frames (split nl (strip reply))
         ++ placeholders prompt
              (length (taken_frames num_frames (split nl (strip reply))))
              (Z.to_nat num_frames
               - length (taken_frames num_frames (split nl (strip reply))))) !! i
        = Some (mkFrame ("Continuation of the scene from " +:+ prompt) (Z.of_nat i + 1)))
  /\ (forall i line,
        (i < Z.to_nat num_frames)%nat ->
        split nl (strip reply) !! i = Some line ->
        truthy (strip line) = true ->
        In (mkFrame (if contains ":" (strip line)
                     then strip (segment_after ":" (strip line))
                     else strip line)
                    (Z.of_nat i + 1))
           (taken_frames num_frames (split nl (strip reply))))
  /\ (strip reply = EmptyString ->
      taken_frames num_frames (split nl (strip reply)) = []).
Proof.
  intros Hcall. rewrite structured_run, Hcall.
  destruct (parse_structured_eq prompt num_frames reply) as [Heq Hle].
  rewrite (structured_loop_taken num_frames (split nl (strip reply)) [] 0) in Heq, Hle.
  rewrite Nat.sub_0_r in Heq, Hle. cbn [app] in Heq, Hle.
  change (omap id (imap (fun j => line_frame (0 + j))
                        (firstn (Z.to_nat num_frames) (split nl (strip reply)))))
    with (taken_frames num_frames (split nl (strip reply))) in Heq, Hle.
  rewrite Heq. split; [reflexivity|]. split; [exact Hle|]. split; [|split].
  - intros i Hi. rewrite lookup_app_r by lia. unfold placeholders.
    rewrite list_lookup_fmap, lookup_seq_lt by lia. simpl. unfold placeholder.
    do 3 f_equal. lia.
  - intros i line Hi Hline Hsolid. unfold taken_frames.
    apply list_elem_of_In, list_elem_of_omap.
    exists (line_frame i line). split; [|unfold line_frame; now rewrite Hsolid].
    apply list_elem_of_lookup. exists i.
    rewrite list_lookup_imap, lookup_take_lt by lia. now rewrite Hline.
  - intros Hblank. rewrite Hblank. unfold taken_frames. clear.
    destruct (Z.to_nat num_frames) as [|[|n]]; reflexivity.
Qed.

Lemma structured_pads_with_placeholders_witness :
  generate_structured_frame_sequence
    (H := Demo.echo (Demo.lines ["Frame 4: a"; EmptyString; "b"])) "cat" 4 Demo.w0
  = (Ok [mkFrame "a" 1; mkFrame "b" 3;
         mkFrame "Continuation of the scene from cat" 3;
         mkFrame "Continuation of the scene from cat" 4],
     after_call Demo.w0).
Proof.
  exact (proj1 (structured_pads_with_placeholders
                  (H := Demo.echo (Demo.lines ["Frame 4: a"; EmptyString; "b"]))
                  "cat" (Demo.lines ["Frame 4: a"; EmptyString; "b"]) 4
                  Demo.w0 (after_call Demo.w0) eq_refl)).
Defined.

End GenerationMore.

Section GenerationEffects.
Import PyStr LLMService Spec Notions.

Lemma call_llm_world `{Services} (messages : list Message) (w : World) :
  snd (call_llm messages w) = after_call w.
Proof. now rewrite call_llm_run. Qed.

(** X8.  [generate_frame_sequence] raises exactly when a completion call
    it makes raises, and with the error of that call: the first call, or
    the call of the fallback after a draft with too few frames.  What the
    replies hold never makes it raise. *)
Theorem generate_raises_only_with_completion `{Services}
    (prompt : string) (num_frames : Z) (w w' : World) (e : exn) :
  generate_frame_sequence prompt num_frames w = (Raise e, w')
  <-> call_llm (generate_messages prompt num_frames) w = (Raise e, w')
      \/ exists reply w1 frames,
           call_llm (generate_messages prompt num_frames) w = (Ok reply, w1)
           /\ parse_draft reply = Ok frames
           /\ Z.of_nat (length frames) < num_frames
           /\ call_llm (structured_messages prompt num_frames) w1 = (Raise e, w').
Proof.
  rewrite generate_run.
  destruct (call_llm (generate_messages prompt num_frames) w) as [[reply|e1] w1].
  - destruct (parse_draft_numbered reply) as (frames & Hdraft & _). rewrite Hdraft.
    destruct (Z.ltb_spec (Z.of_nat (length frames)) num_frames) as [Hlt|Hge].
    + rewrite structured_run. split.
      * destruct (call_llm (structured_messages prompt num_frames) w1) as [[r2|e2] w2]
          eqn:Hcall2; [discriminate|].
        intros [= -> ->]. right. exists reply, w1, frames. repeat split; auto.
      * intros [Habs | (reply' & w1' & frames' & [= <- <-] & _ & _ & Hcall2)];
          [discriminate|].
        now rewrite Hcall2.
    + split; [discriminate|].
      intros [Habs | (reply' & w1' & frames' & [= <- <-] & Hdraft' & Hlt & _)];
        [discriminate|].
      rewrite Hdraft in Hdraft'. injection Hdraft' as <-. lia.
  - split.
    + intros [= -> ->]. now left.
    + intros [[= -> ->] | (reply' & w1' & frames' & Habs & _)]; [reflexivity | discriminate].
Qed.

Lemma completion_calls_bound_aux `{Services}
    (prompt : string) (num_frames : Z) (frames : list FrameDescription) (w : World) :
  (snd (generate_frame_sequence prompt num_frames w) = after_call w
   \/ snd (generate_frame_sequence prompt num_frames w) = after_call (after_call w))
  /\ snd (refine_frame_sequence frames prompt w) = after_call w.
Proof.
  split.
  - rewrite generate_run.
    pose proof (call_llm_world (generate_messages prompt num_frames) w) as Hw1.
    destruct (call_llm (generate_messages prompt num_frames) w) as [[reply|e] w1];
      simpl in Hw1; subst w1; [|now left].
    assert (Hfallback :
              snd (generate_structured_frame_sequence prompt num_frames (after_call w))
              = after_call (after_call w)).
    { rewrite structured_run.
      pose proof (call_llm_world (structured_messages prompt num_frames) (after_call w))
        as Hw2.
      now destruct (call_llm (structured_messages prompt num_frames) (after_call w))
        as [[r2|e2] w2]. }
    destruct (parse_draft reply) as [drafted|e]; [|now right].
    destruct (_ <? _); [now right | now left].
  - rewrite refine_run.
    pose proof (call_llm_world (refine_messages (frames_text frames) prompt) w) as Hw1.
    now destruct (call_llm (refine_messages (frames_text frames) prompt) w)
      as [[reply|e] w1].
Qed.

(** X9.  [generate_frame_sequence] makes one completion call, or two when
    it falls back, never more; [refine_frame_sequence] makes exactly one.
    Neither pauses, and neither creates or changes an object. *)
Theorem completion_calls_are_bounded `{Services}
    (prompt : string) (num_frames : Z) (frames : list FrameDescription) (w : World) :
  (snd (generate_frame_sequence prompt num_frames w) = after_call w
   \/ snd (generate_frame_sequence prompt num_frames w) = after_call (after_call w))
  /\ snd (refine_frame_sequence frames prompt w) = after_call w.
Proof. apply completion_calls_bound_aux. Qed.

End GenerationEffects.

Section GenerationExamples.
Import PyStr LLMService Spec Notions.

(** A service that is down: the error of the first call comes out and
    no fallback is tried. *)
Example generate_with_service_down :
  generate_frame_sequence (H := Samples.unreachable) "cat" 3 Demo.w0
  = (Raise (RequestException "connection refused"), after_call Demo.w0).
Proof. vm_compute. reflexivity. Qed.

(** A service that goes down after a draft without a usable line: the
    error of the fallback call comes out. *)
Example generate_with_fallback_down :
  generate_frame_sequence (H := Samples.once "no frame here") "cat" 3 Demo.w0
  = (Raise (RequestException "connection refused"), after_call (after_call Demo.w0)).
Proof. vm_compute. reflexivity. Qed.

End GenerationExamples.

(* ================================================================== *)
(** * The shape of generated descriptions, and the whole pipeline *)
(* ================================================================== *)

Section Pipeline.
Import PyStr LLMService Spec Notions.

Lemma well_formatted_app (l1 l2 : list FrameDescription) :
  well_formatted (l1 ++ l2) = well_formatted l1 && well_formatted l2.
Proof. apply forallb_app. Qed.

Lemma trimmed_is_well_formatted (x : string) (n : Z) :
  contains nl x = false -> well_formatted_frame (mkFrame (strip x) n) = true.
Proof.
  intros Hx. unfold well_formatted_frame. simpl.
  now rewrite strip_idem, String.eqb_refl, (strip_no_sep nl x Hx).
Qed.

Lemma after_colon_well_formatted (line : string) (n : Z) :
  contains nl line = false -> well_formatted_frame (mkFrame (after_colon line) n) = true.
Proof. intros Hl. apply trimmed_is_well_formatted, last_split1_no_sep, Hl. Qed.

Lemma after_dot_well_formatted (line : string) (n : Z) :
  contains nl line = false -> well_formatted_frame (mkFrame (after_dot line) n) = true.
Proof. intros Hl. apply trimmed_is_well_formatted, last_split1_no_sep, Hl. Qed.

Lemma draft_loop_well_formatted (lines : list string) :
  Forall (fun line => contains nl line = false) lines ->
  forall frames k frames' k',
    well_formatted frames = true ->
    for_each_pure draft_line (frames, k) lines = Ok (frames', k') ->
    well_formatted frames' = true.
Proof.
  induction 1 as [|line lines Hline _ IH]; intros frames k frames' k' Hwf; simpl.
  - now intros [= <- _].
  - pose proof (strip_no_sep nl line Hline) as Hs.
    destruct (accepts (strip line) k); simpl; [|now apply IH].
    apply IH. rewrite well_formatted_app, Hwf. unfold well_formatted. simpl.
    rewrite andb_true_r.
    destruct (contains ":" (strip line));
      [now apply after_colon_well_formatted | now apply after_dot_well_formatted].
Qed.

Lemma parse_draft_well_formatted (response : string) (frames : list FrameDescription) :
  parse_draft response = Ok frames -> well_formatted frames = true.
Proof.
  unfold parse_draft.
  destruct (for_each_pure draft_line ([], 1) (split nl (strip response)))
    as [[frames' k']|e] eqn:E; [|discriminate].
  simpl. intros [= <-].
  exact (draft_loop_well_formatted _ (split_pieces nl _) [] 1 frames' k' eq_refl E).
Qed.

Lemma structured_loop_well_formatted (num_frames : Z) (lines : list string) :
  Forall (fun line => contains nl line = false) lines ->
  forall frames i,
    well_formatted frames = true ->
    well_formatted (structured_loop num_frames frames i lines) = true.
Proof.
  induction 1 as [|line lines Hline _ IH]; intros frames i Hwf; simpl; [exact Hwf|].
  apply IH. unfold structured_line.
  pose proof (strip_no_sep nl line Hline) as Hs.
  destruct (truthy (strip line) && (Z.of_nat i <? num_frames)); [|exact Hwf].
  rewrite well_formatted_app, Hwf. unfold well_formatted. simpl. rewrite andb_true_r.
  destruct (contains ":" (strip line));
    [now apply after_colon_well_formatted | now apply trimmed_is_well_formatted].
Qed.

Lemma placeholder_well_formatted (prompt : string) (n : Z) :
  plain_prompt prompt = true -> well_formatted_frame (placeholder prompt n) = true.
Proof.
  unfold plain_prompt. intros [[Hne Hr%String.eqb_eq]%andb_true_iff Hnl%negb_true_iff]%andb_true_iff.
  unfold well_formatted_frame, placeholder. cbn [description].
  rewrite contains_app, Hnl. change (contains nl "Continuation of the scene from ") with false.
  cbn [orb negb]. rewrite andb_true_r. apply String.eqb_eq. unfold strip.
  change (lstrip ("Continuation of the scene from " +:+ prompt))
    with ("Continuation of the scene from " +:+ prompt).
  rewrite rstrip_app; [now rewrite Hr|].
  rewrite Hr. now destruct prompt.
Qed.

Lemma placeholders_well_formatted (prompt : string) (first count : nat) :
  plain_prompt prompt = true -> well_formatted (placeholders prompt first count) = true.
Proof.
  intros Hp. unfold placeholders, well_formatted. apply forallb_forall.
  intros f Hf. apply in_map_iff in Hf as (i & <- & _).
  now apply placeholder_well_formatted.
Qed.

(** Every description [generate_frame_sequence] returns is trimmed and on
    one line, the placeholders too when the prompt is plain. *)
Lemma generate_well_formatted `{Services} (prompt : string) (num_frames : Z)
    (w w' : World) (out : list FrameDescription) :
  plain_prompt prompt = true ->
  generate_frame_sequence prompt num_frames w = (Ok out, w') ->
  well_formatted out = true.
Proof.
  intros Hp. rewrite generate_run.
  destruct (call_llm (generate_messages prompt num_frames) w) as [[reply|e] w1];
    [|discriminate].
  assert (Hfallback : generate_structured_frame_sequence prompt num_frames w1 = (Ok out, w')
                      -> well_formatted out = true).
  { rewrite structured_run.
    destruct (call_llm (structured_messages prompt num_frames) w1) as [[r2|e2] w2];
      [|discriminate].
    intros [= <- _]. destruct (parse_structured_eq prompt num_frames r2) as [-> _].
    rewrite well_formatted_app, placeholders_well_formatted by assumption.
    rewrite andb_true_r.
    exact (structured_loop_well_formatted _ _ (split_pieces nl _) [] 0%nat eq_refl). }
  destruct (parse_draft reply) as [frames|e] eqn:Hdraft; [|exact Hfallback].
  destruct (_ <? _); [exact Hfallback|].
  intros [= <- _]. exact (parse_draft_well_formatted reply frames Hdraft).
Qed.

(** X10.  For a plain prompt (not empty, no blank at its end, one line),
    every description [generate_frame_sequence] returns is trimmed and
    holds no line break: each frame renders as one line of the format
    the refinement asks for. *)
Theorem generate_output_is_well_formatted `{Services} (prompt : string) (num_frames : Z)
    (w w' : World) (out : list FrameDescription) :
  plain_prompt prompt = true ->
  generate_frame_sequence prompt num_frames w = (Ok out, w') ->
  well_formatted out = true.
Proof. apply generate_well_formatted. Qed.

Lemma generate_output_is_well_formatted_witness :
  well_formatted [mkFrame "a" 1; mkFrame "b" 2;
                  mkFrame "Continuation of the scene from cat" 3;
                  mkFrame "Continuation of the scene from cat" 4] = true.
Proof.
  apply (generate_output_is_well_formatted
           (H := Demo.echo (Demo.lines ["  Frame 1:   a  "; "Frame 2: b"]))
           "cat" 4 Demo.w0 (after_call (after_call Demo.w0))).
  - reflexivity.
  - vm_compute. reflexivity.
Defined.

Lemma process_prompt_run `{Services} (text : string) (num_frames : Z) (w : World) :
  Main.process_prompt text num_frames w =
  match generate_frame_sequence text num_frames w with
  | (Ok drafted, w1) =>
      match refine_frame_sequence drafted text w1 with
      | (Ok refined, w2) => (Ok (mkStoryboard text drafted refined), w2)
      | (Raise e, w2) => (Raise e, w2)
      end
  | (Raise e, w1) => (Raise e, w1)
  end.
Proof.
  unfold Main.process_prompt, Mon.bind.
  destruct (generate_frame_sequence text num_frames w) as [[drafted|e] w1]; [|reflexivity].
  now destruct (refine_frame_sequence drafted text w1) as [[refined|e] w2].
Qed.

(** X11.  The storyboard [process_prompt] returns carries the prompt it
    was given, at least the number of draft frames asked for, and as
    many refined frames as draft frames; it takes two completion calls,
    or three when the generation fell back. *)
Theorem process_prompt_storyboard `{Services} (text : string) (num_frames : Z)
    (w w' : World) (storyboard : StoryboardSequence) :
  Main.process_prompt text num_frames w = (Ok storyboard, w') ->
  prompt storyboard = text
  /\ num_frames <= Z.of_nat (length (frames storyboard))
  /\ length (refined_frames storyboard) = length (frames storyboard)
  /\ (w' = after_call (after_call w) \/ w' = after_call (after_call (after_call w))).
Proof.
  rewrite process_prompt_run.
  destruct (generate_frame_sequence text num_frames w) as [[drafted|e] w1] eqn:Hgen;
    [|discriminate].
  destruct (refine_frame_sequence drafted text w1) as [[refined|e] w2] eqn:Href;
    [|discriminate].
  intros [= <- <-]. simpl.
  split; [reflexivity|]. split.
  { destruct (Z.le_gt_cases 0 num_frames); [|lia].
    eapply generate_at_least; eassumption. }
  split.
  { rewrite refine_run in Href.
    destruct (call_llm _ w1) as [[reply|e] w3]; [|discriminate].
    injection Href as <- _. apply reconcile_length. }
  pose proof (proj1 (completion_calls_bound_aux text num_frames drafted w)) as Hg.
  pose proof (proj2 (completion_calls_bound_aux text num_frames drafted w1)) as Hr.
  rewrite Hgen in Hg. rewrite Href in Hr. simpl in Hg, Hr. subst w2.
  destruct Hg as [-> | ->]; [now left | now right].
Qed.

End Pipeline.

Section PipelineExamples.
Import PyStr LLMService Spec Notions.

Lemma process_prompt_storyboard_witness :
  exists storyboard w',
    Main.process_prompt (H := Demo.echo (Demo.lines ["Frame 1: a"; "Frame 2: b"]))
      "cat" 4 Demo.w0 = (Ok storyboard, w')
    /\ length (refined_frames storyboard) = length (frames storyboard)
    /\ w' = after_call (after_call (after_call Demo.w0)).
Proof.
  eexists _, _. split; [vm_compute; reflexivity|].
  match goal with
  | |- length (refined_frames ?sb) = _ /\ ?w' = _ =>
      destruct (process_prompt_storyboard
                  (H := Demo.echo (Demo.lines ["Frame 1: a"; "Frame 2: b"]))
                  "cat" 4 Demo.w0 w' sb) as (_ & _ & Hlen & _);
        [vm_compute; reflexivity | split; [exact Hlen | reflexivity]]
  end.
Defined.

(** X12.  When the generation returned the frames [drafted] for a plain
    prompt and the reply of the refinement echoes their rendering, the
    storyboard of [process_prompt] has the drafted frames as its refined
    frames: an echo changes nothing anywhere in the pipeline. *)
Theorem process_prompt_with_echo `{Services} (text reply : string) (num_frames : Z)
    (w w1 w2 : World) (drafted : list FrameDescription) :
  plain_prompt text = true ->
  generate_frame_sequence text num_frames w = (Ok drafted, w1) ->
  call_llm (refine_messages (frames_text drafted) text) w1 = (Ok reply, w2) ->
  strip reply = strip (frames_text drafted) ->
  Main.process_prompt text num_frames w = (Ok (mkStoryboard text drafted drafted), w2).
Proof.
  intros Hplain Hgen Hcall Hecho.
  pose proof (generate_well_formatted text num_frames w w1 drafted Hplain Hgen) as Hwf.
  pose proof (parse_echo drafted reply Hwf Hecho) as Hparse.
  rewrite parse_refined_eq in Hparse. injection Hparse as Hparse.
  rewrite process_prompt_run, Hgen, refine_run, Hcall, Hparse.
  now rewrite reconcile_eq, decide_True.
Qed.

Lemma process_prompt_with_echo_witness :
  Main.process_prompt (H := Demo.echo (Demo.lines ["Frame 1: a"; "Frame 2: b"]))
    "cat" 2 Demo.w0
  = (Ok (mkStoryboard "cat" [mkFrame "a" 1; mkFrame "b" 2] [mkFrame "a" 1; mkFrame "b" 2]),
     after_call (after_call Demo.w0)).
Proof.
  apply (process_prompt_with_echo (H := Demo.echo (Demo.lines ["Frame 1: a"; "Frame 2: b"]))
           "cat" (Demo.lines ["Frame 1: a"; "Frame 2: b"]) 2 Demo.w0 (after_call Demo.w0)).
  - reflexivity.
  - vm_compute. reflexivity.
  - vm_compute. reflexivity.
  - reflexivity.
Defined.

End PipelineExamples.

(* ================================================================== *)
(** * More on the completion call *)
(* ================================================================== *)

Section CompletionMore.
Import PyStr LLMService Spec Notions.

Lemma read_response_trimmed (inputs : string) (response : Response) (reply : string) :
  read_response inputs response = Ok reply -> strip reply = reply.
Proof.
  unfold read_response. destruct (negb _); [discriminate|].
  destruct (json_body response) as [result|e]; [|discriminate]. simpl.
  assert (Hget : forall v,
             (let+ generated := Py.get v "generated_text" (JStr EmptyString) in
              Py.replace_strip generated inputs EmptyString) = Ok reply ->
             strip reply = reply).
  { intros v. destruct v; try discriminate. simpl.
    destruct (default _ _); try discriminate. simpl.
    intros [= <-]. apply strip_idem. }
  destruct result as [| | | | |l|items]; try (intros [= <-]; reflexivity).
  - destruct l as [|first l]; [intros [= <-]; reflexivity | apply Hget].
  - apply Hget.
Qed.

(** X13.  The text [call_llm] returns is trimmed: it has no blank, tab or
    line break at either end, so the [strip] its callers apply to it
    changes nothing. *)
Theorem call_llm_reply_is_trimmed `{Services}
    (messages : list Message) (w w' : World) (reply : string) :
  call_llm messages w = (Ok reply, w') -> strip reply = reply.
Proof.
  rewrite call_llm_run. destruct (requests_post _ _) as [response|e]; [|discriminate].
  intros [= Hread _]. exact (read_response_trimmed _ _ _ Hread).
Qed.

Lemma call_llm_reply_is_trimmed_witness : strip "Frame 1: a" = "Frame 1: a".
Proof.
  apply (call_llm_reply_is_trimmed (H := Demo.echo "   Frame 1: a   ") []
           Demo.w0 (after_call Demo.w0)).
  vm_compute. reflexivity.
Defined.

Lemma prefix_app (p s : string) : String.prefix p (p +:+ s) = true.
Proof.
  induction p as [|c p IH]; simpl; [now destruct s|].
  destruct (ascii_dec c c); [exact IH | contradiction].
Qed.

Lemma replace_from_skip (old new t s : string) :
  replace_from old new (String.length t) (t +:+ s) = replace_from old new O s.
Proof. induction t as [|c t IH]; simpl; [reflexivity | exact IH]. Qed.

Lemma replace_absent (old new s : string) :
  truthy old = true -> Py.str_in old s = false -> replace s old new = s.
Proof.
  destruct old as [|c r]; [discriminate|]. intros _. unfold replace.
  induction s as [|x s IH]; [reflexivity|].
  intros Hin. cbn [Py.str_in] in Hin. apply orb_false_iff in Hin as [Hp Hs].
  cbn [replace_from]. rewrite Hp. now rewrite IH.
Qed.

(** An echoed prompt in front of the completion is cut off. *)
Lemma replace_echo (inputs completion : string) :
  truthy inputs = true -> Py.str_in inputs completion = false ->
  replace (inputs +:+ completion) inputs EmptyString = completion.
Proof.
  intros Hne Hin. rewrite <- (replace_absent inputs EmptyString completion Hne Hin) at 2.
  destruct inputs as [|c r]; [discriminate|]. unfold replace.
  change (String c r +:+ completion) with (String c (r +:+ completion)).
  cbn [replace_from].
  change (String c (r +:+ completion)) with (String c r +:+ completion).
  rewrite prefix_app.
  replace (String.length (String c r) - 1)%nat with (String.length r) by (simpl; lia).
  change (EmptyString +:+ ?x) with x.
  now rewrite replace_from_skip.
Qed.

(** X14.  When the service answers with the prompt followed by a
    completion, as text-generation endpoints do, [call_llm] returns the
    trimmed completion alone (the prompt being non-empty and not
    occurring in the completion). *)
Theorem call_llm_cuts_echoed_prompt `{Services}
    (messages : list Message) (completion : string) (w : World) (response : Response)
    (items : list (string * json)) (rest : list json) :
  truthy (_format_messages messages) = true ->
  Py.str_in (_format_messages messages) completion = false ->
  requests_post (tick w) (llm_request messages) = Ok response ->
  status_code response = 200 ->
  json_body response = Ok (JList (JDict items :: rest)) ->
  Py.dict_lookup "generated_text" items
  = Some (JStr (_format_messages messages +:+ completion)) ->
  call_llm messages w = (Ok (strip completion), after_call w).
Proof.
  intros Hne Hin Hpost Hstatus Hjson Htext.
  rewrite call_llm_run, Hpost. unfold read_response.
  rewrite Hstatus, Hjson. simpl. rewrite Htext. simpl.
  now rewrite (replace_echo _ _ Hne Hin).
Qed.

Lemma call_llm_cuts_echoed_prompt_witness :
  call_llm (H := Samples.parrot "  Frame 1: a cat") (generate_messages "cat" 1) Demo.w0
  = (Ok "Frame 1: a cat", after_call Demo.w0).
Proof.
  apply (call_llm_cuts_echoed_prompt (H := Samples.parrot "  Frame 1: a cat")
           (generate_messages "cat" 1) "  Frame 1: a cat" Demo.w0
           (Demo.ok_response (_format_messages (generate_messages "cat" 1)
                              +:+ "  Frame 1: a cat"))
           [("generated_text",
             JStr (_format_messages (generate_messages "cat" 1) +:+ "  Frame 1: a cat"))]
           []);
    vm_compute; reflexivity.
Defined.

Lemma format_message_unknown (acc : string) (m : Message) :
  known_role m = false -> format_message acc m = acc.
Proof.
  unfold known_role, format_message.
  intros [[H1 H2]%orb_false_iff H3]%orb_false_iff. now rewrite H1, H2, H3.
Qed.

(** X15.  [_format_messages] leaves out every message whose role is not
    [system], [user] or [assistant]: the prompt is the one of the
    messages with those three roles. *)
Theorem format_messages_skips_other_roles (messages : list Message) :
  _format_messages (List.filter known_role messages) = _format_messages messages.
Proof.
  unfold _format_messages. f_equal. generalize EmptyString as acc.
  induction messages as [|m messages IH]; intros acc; [reflexivity|].
  cbn [List.filter]. destruct (known_role m) eqn:Hm; cbn [fold_left].
  - apply IH.
  - rewrite (format_message_unknown acc m Hm). apply IH.
Qed.

End CompletionMore.

(* ================================================================== *)
(** * More on the image service *)
(* ================================================================== *)

Section ImageMore.
Context `{Services}.
Import PyStr ImageGenerationService Spec Notions.

Ltac no_image :=
  split; [discriminate | intros (? & ? & ?); discriminate].

(** [read_image] gives an image exactly for a usable response whose
    first artifact decodes. *)
Lemma read_image_some (response : Response) (image : Image) :
  read_image response = Ok (Some image)
  <-> exists encoded, first_artifact response = Some encoded
                      /\ image_open encoded = Ok image.
Proof.
  unfold read_image, first_artifact.
  destruct (Z.eqb_spec (status_code response) 200) as [_|_]; simpl; [|no_image].
  destruct (json_body response) as [data|e]; simpl; [|no_image].
  destruct data as [| | | |s|l|items]; simpl; try no_image.
  - destruct (Py.str_in "artifacts" s); simpl; no_image.
  - destruct (existsb (Py.is_str "artifacts") l); simpl; no_image.
  - destruct (Py.dict_lookup "artifacts" items) as [v|] eqn:E; simpl; [|no_image].
    destruct v as [| | | |s|l|inner]; simpl; try no_image.
    + destruct s as [|c s]; simpl; [no_image|]. rewrite ?E; simpl. no_image.
    + destruct l as [|artifact l]; simpl; [no_image|]. rewrite ?E; simpl.
      destruct artifact as [| | | |s|l'|fields]; simpl; try no_image.
      destruct (Py.dict_lookup "base64" fields) as [b|]; simpl; [|no_image].
      destruct b as [| | | |encoded| |]; simpl; try no_image.
      destruct (image_open encoded) as [img|e] eqn:Hopen; simpl.
      * split.
        -- intros [= <-]. eauto.
        -- intros (enc & [= <-] & Himg). rewrite Hopen in Himg. now injection Himg as <-.
      * split; [discriminate|].
        intros (enc & [= <-] & Himg). rewrite Hopen in Himg. discriminate.
    + destruct inner as [|field inner]; simpl; [no_image|]. rewrite ?E; simpl. no_image.
Qed.

(** X16.  [generate_image] returns an image exactly when the key is
    usable, the request gets a response with status 200 whose JSON body
    is an object with a list under [artifacts], the first artifact is an
    object with a string under [base64], and that string decodes; the
    image is the decoded first artifact and one request was made.  In
    every other case of a request it returns [None]. *)
Theorem generate_image_succeeds_iff
    (prompt : string) (negative_prompt : option string) (w w' : World) (image : Image) :
  generate_image prompt negative_prompt w = (Ok (Some image), w')
  <-> exists key response encoded,
        usable_key = Some key
        /\ requests_post (tick w) (image_request key prompt negative_prompt) = Ok response
        /\ first_artifact response = Some encoded
        /\ image_open encoded = Ok image
        /\ w' = after_call w.
Proof.
  rewrite generate_image_run. destruct usable_key as [key|].
  2:{ split; [discriminate | intros (? & ? & ? & ? & _); discriminate]. }
  destruct (requests_post _ _) as [response|e] eqn:Hpost.
  2:{ split; [discriminate|]. intros (k & r & enc & [= <-] & Hp & _).
      rewrite Hpost in Hp. discriminate. }
  split.
  - destruct (read_image response) as [[img|]|e] eqn:Hread; try discriminate.
    intros [= <- <-]. apply read_image_some in Hread as (enc & Hart & Hopen).
    exists key, response, enc. auto.
  - intros (k & r & enc & [= <-] & Hp & Hart & Hopen & ->).
    rewrite Hpost in Hp. injection Hp as <-.
    assert (Hread : read_image response = Ok (Some image))
      by (apply read_image_some; eauto).
    now rewrite Hread.
Qed.

Lemma map_chars_length (f : ascii -> ascii) (s : string) :
  String.length (map_chars f s) = String.length s.
Proof. induction s as [|c s IH]; simpl; [reflexivity | now rewrite IH]. Qed.

Lemma clean_char_allowed (c : ascii) : allowed_in_filename (clean_char c) = true.
Proof.
  unfold clean_char. fold (allowed_in_filename c).
  destruct (allowed_in_filename c) eqn:E; [exact E | reflexivity].
Qed.

Lemma map_chars_cons (f : ascii -> ascii) (c : ascii) (s : string) :
  map_chars f (String c s) = String (f c) (map_chars f s).
Proof. reflexivity. Qed.

Lemma clean_allowed (s : string) :
  all_chars allowed_in_filename (map_chars clean_char s) = true.
Proof.
  induction s as [|c s IH]; [reflexivity|].
  rewrite map_chars_cons. cbn [all_chars].
  now rewrite clean_char_allowed, IH.
Qed.

Lemma clean_fixed (s : string) :
  all_chars allowed_in_filename s = true -> map_chars clean_char s = s.
Proof.
  induction s as [|c s IH]; [reflexivity|].
  rewrite map_chars_cons. cbn [all_chars].
  intros [Hc Hs]%andb_true_iff. rewrite (IH Hs).
  unfold clean_char. fold (allowed_in_filename c). now rewrite Hc.
Qed.

(** X17.  The path [save_image] returns is the output directory joined
    with the time stamp, an underscore, the cleaned file name and
    [.png]; the cleaned name is as long as the name given, holds only
    letters, digits, blanks, hyphens and underscores (so no path
    separator and no dot), and is the name itself when the name holds
    nothing else. *)
Theorem save_image_cleans_name
    (image : Image) (filename path : string) (w w' : World) :
  save_image image filename w = (Ok path, w') ->
  exists clean,
    path = path_join output_dir (strftime_now (tick w) +:+ "_" +:+ clean +:+ ".png")
    /\ String.length clean = String.length filename
    /\ all_chars allowed_in_filename clean = true
    /\ contains "/" clean = false
    /\ (all_chars allowed_in_filename filename = true -> clean = filename).
Proof.
  unfold save_image, Mon.bind, Mon.external, Mon.ret. simpl.
  destruct (image_save _ _ _) as [[]|e]; [|discriminate].
  intros [= <- _]. exists (map_chars clean_char filename).
  split; [reflexivity|]. split; [apply map_chars_length|].
  split; [apply clean_allowed|]. split; [|apply clean_fixed].
  apply (all_chars_contains allowed_in_filename); [reflexivity | apply clean_allowed].
Qed.

End ImageMore.

Section ImageMoreExamples.
Import PyStr ImageGenerationService Spec Notions.

Lemma save_image_cleans_name_witness :
  exists clean,
    "/work/generated_frames/20240101_000000_frame_01_a_b__c_.png"
    = path_join (output_dir (H := Samples.all_images))
        (strftime_now (Services := Samples.all_images) 0 +:+ "_" +:+ clean +:+ ".png")
    /\ String.length clean = String.length "frame_01_a/b.:c?"
    /\ contains "/" clean = false.
Proof.
  destruct (save_image_cleans_name (H := Samples.all_images)
              "aGVsbG8=" "frame_01_a/b.:c?"
              "/work/generated_frames/20240101_000000_frame_01_a_b__c_.png"
              Demo.w0 (after_call (after_call Demo.w0)))
    as (clean & Hpath & Hlen & _ & Hsep & _).
  - vm_compute. reflexivity.
  - exists clean. auto.
Defined.

End ImageMoreExamples.

(* ================================================================== *)
(** * More on the image batch *)
(* ================================================================== *)

Section BatchMore.
Context `{Services}.
Import PyStr ImageGenerationService Spec Notions.

Lemma take_length (n : nat) (s : string) :
  String.length (take n s) = Nat.min n (String.length s).
Proof.
  revert s. induction n as [|n IH]; intros [|c s]; simpl; try reflexivity.
  now rewrite IH.
Qed.

Lemma replace_blank (s : string) :
  replace s " " "_" = map_chars (fun c => if Ascii.eqb c " " then "_"%char else c) s.
Proof.
  unfold replace. induction s as [|c s IH]; [reflexivity|].
  rewrite map_chars_cons. cbn [replace_from String.prefix String.length Nat.sub].
  destruct (ascii_dec " " c) as [<-|Hc].
  - rewrite IH. now destruct s.
  - rewrite IH. destruct (Ascii.eqb_spec c " ") as [->|_]; [contradiction | reflexivity].
Qed.

Lemma no_blank_after_replace (s : string) : contains " " (replace s " " "_") = false.
Proof.
  rewrite replace_blank. induction s as [|c s IH]; [reflexivity|].
  rewrite map_chars_cons. cbn [contains]. rewrite IH.
  destruct (Ascii.eqb_spec c " ") as [->|Hc]; [reflexivity|].
  now destruct (Ascii.eqb_spec c " ").
Qed.

(** The file name the batch gives a frame is [frame_], the frame number
    on at least two digits, an underscore, and at most 30 characters
    without a blank. *)
Lemma frame_filename_is_bounded (frame : FrameDescription) :
  exists part,
    frame_filename frame
    = "frame_" +:+ format_02d (frame_number frame) +:+ "_" +:+ part
    /\ String.length part = Nat.min 30 (String.length (description frame))
    /\ contains " " part = false
    /\ (2 <= String.length (format_02d (frame_number frame)))%nat.
Proof.
  exists (replace (take 30 (description frame)) " " "_").
  split; [reflexivity|]. split.
  { rewrite replace_blank, map_chars_length. apply take_length. }
  split; [apply no_blank_after_replace|].
  unfold format_02d.
  destruct (Nat.ltb_spec (String.length (str_of_int (frame_number frame))) 2) as [Hlt|Hge];
    [|exact Hge].
  destruct (frame_number frame) as [|p|p].
  - simpl. lia.
  - rewrite str_of_int_pos in *. destruct (pos_text p) as (c & s & E & _).
    rewrite E. simpl. lia.
  - rewrite str_of_int_neg in *. destruct (pos_text p) as (c & s & E & _).
    rewrite E in *. simpl in *. lia.
Qed.

(** The pause a turn of the batch loop takes. *)
Lemma frame_image_world style_prompt negative_prompt total paths i frame w :
  (forall k image path, image_save k image path = Ok tt) ->
  exists paths' w',
    frame_image style_prompt negative_prompt total (paths, i) frame w
    = (Ok (paths', S i), w')
    /\ slept w' = (slept w + if (Z.of_nat i <? Z.of_nat total - 1)%Z then 1 else 0)%nat
    /\ heap w' = heap w.
Proof.
  intros Hsave. unfold frame_image.
  pose proof (generate_image_run (description frame +:+ ". " +:+ style_prompt)
                (Some negative_prompt) w) as Hgen.
  assert (Hw : exists image w1,
             generate_image (description frame +:+ ". " +:+ style_prompt)
                            (Some negative_prompt) w = (Ok image, w1)
             /\ slept w1 = slept w /\ heap w1 = heap w).
  { rewrite Hgen. destruct usable_key; eauto. }
  destruct Hw as (image & w1 & Hrun & Hs1 & Hh1).
  rewrite (bind_ok _ _ _ _ _ Hrun).
  assert (Hpaths : exists paths' w2,
             match image with
             | Some img =>
                 let* image_path := save_image img (frame_filename frame) in
                 if truthy image_path then Mon.ret (paths ++ [image_path])
                 else Mon.ret paths
             | None => Mon.ret paths
             end w1 = (Ok paths', w2)
             /\ slept w2 = slept w /\ heap w2 = heap w).
  { destruct image as [img|]; [|exists paths, w1; auto].
    destruct (save_image_run img (frame_filename frame) w1) as (path & Hsv & Hpath).
    rewrite Hsave in Hsv. unfold Mon.bind. rewrite Hsv, Hpath.
    eexists _, _. split; [reflexivity|]. simpl. auto. }
  destruct Hpaths as (paths' & w2 & Hrun2 & Hs2 & Hh2).
  rewrite (bind_ok _ _ _ _ _ Hrun2).
  exists paths'. unfold Mon.bind.
  destruct (Z.of_nat i <? Z.of_nat total - 1); eexists; (split; [reflexivity|]); simpl;
    split; try assumption; lia.
Qed.

Lemma batch_loop_pauses style_prompt negative_prompt total frames :
  (forall k image path, image_save k image path = Ok tt) ->
  forall paths i w,
    (i + length frames = total)%nat ->
    exists st w',
      for_each (frame_image style_prompt negative_prompt total) (paths, i) frames w
      = (Ok st, w')
      /\ slept w' = (slept w + pauses (length frames))%nat
      /\ heap w' = heap w.
Proof.
  intros Hsave. unfold pauses.
  induction frames as [|frame frames IH]; intros paths i w Htotal.
  - exists (paths, i), w. simpl. repeat split; lia.
  - destruct (frame_image_world style_prompt negative_prompt total paths i frame w Hsave)
      as (paths1 & w1 & Hrun & Hs1 & Hh1).
    simpl in Htotal.
    destruct (IH paths1 (S i) w1 ltac:(lia)) as (st & w' & Hrest & Hs' & Hh').
    exists st, w'. simpl for_each. rewrite (bind_ok _ _ _ _ _ Hrun), Hrest.
    split; [reflexivity|]. split; [|congruence].
    rewrite Hs', Hs1. simpl length.
    destruct (Z.ltb_spec (Z.of_nat i) (Z.of_nat total - 1)); destruct frames; simpl in *; lia.
Qed.

(** X19.  While the images that are made can be saved, the batch over
    [n] frames pauses [n - 1] seconds in all, one second after every
    frame but the last, whether or not the frames got an image; it
    creates and changes no object. *)
Theorem batch_pauses_between_frames
    (frames : list FrameDescription) (style_prompt negative_prompt : string) (w : World) :
  (forall k image path, image_save k image path = Ok tt) ->
  exists paths w',
    generate_frame_images frames style_prompt negative_prompt w = (Ok paths, w')
    /\ slept w' = (slept w + pauses (length frames))%nat
    /\ heap w' = heap w.
Proof.
  intros Hsave.
  destruct (batch_loop_pauses style_prompt negative_prompt (length frames) frames Hsave
              [] O w eq_refl) as ([paths i] & w' & Hrun & Hs & Hh).
  exists paths, w'. unfold generate_frame_images.
  rewrite (bind_ok _ _ _ _ _ Hrun). auto.
Qed.

Lemma frame_image_without_key style_prompt negative_prompt total paths i frame w :
  usable_key = None ->
  frame_image style_prompt negative_prompt total (paths, i) frame w
  = (Ok (paths, S i),
     mkWorld (tick w)
             (slept w + if (Z.of_nat i <? Z.of_nat total - 1)%Z then 1 else 0)
             (heap w)).
Proof.
  intros Hkey. unfold frame_image, Mon.bind.
  rewrite generate_image_run, Hkey. unfold Mon.ret.
  destruct (Z.of_nat i <? Z.of_nat total - 1); unfold Mon.sleep, Mon.ret.
  - reflexivity.
  - destruct w. simpl. now rewrite Nat.add_0_r.
Qed.

Lemma batch_loop_without_key style_prompt negative_prompt total frames :
  usable_key = None ->
  forall paths i w,
    (i + length frames = total)%nat ->
    for_each (frame_image style_prompt negative_prompt total) (paths, i) frames w
    = (Ok (paths, (i + length frames)%nat),
       mkWorld (tick w) (slept w + pauses (length frames)) (heap w)).
Proof.
  intros Hkey. unfold pauses.
  induction frames as [|frame frames IH]; intros paths i w Htotal.
  - simpl. rewrite !Nat.add_0_r. now destruct w.
  - simpl for_each.
    rewrite (bind_ok _ _ _ _ _
               (frame_image_without_key style_prompt negative_prompt total paths i frame w
                  Hkey)).
    simpl in Htotal. rewrite IH by (simpl; lia). simpl.
    f_equal; [do 2 f_equal; lia|]. f_equal.
    destruct (Z.ltb_spec (Z.of_nat i) (Z.of_nat total - 1)); destruct frames;
      simpl in *; lia.
Qed.

(** X20.  Without a usable key (none, or an empty one) the batch makes no
    request at all: it returns no path, whatever the frames, and only
    the pauses between the frames have passed. *)
Theorem batch_without_usable_key
    (frames : list FrameDescription) (style_prompt negative_prompt : string) (w : World) :
  usable_key = None ->
  generate_frame_images frames style_prompt negative_prompt w
  = (Ok [], mkWorld (tick w) (slept w + pauses (length frames)) (heap w)).
Proof.
  intros Hkey. unfold generate_frame_images.
  rewrite (bind_ok _ _ _ _ _
             (batch_loop_without_key style_prompt negative_prompt (length frames) frames
                Hkey [] O w eq_refl)).
  reflexivity.
Qed.

End BatchMore.

Section BatchOutcomes.
Context `{Services}.
Import PyStr ImageGenerationService Spec Notions.

Lemma batch_loop_all_images style_prompt negative_prompt total frames key :
  usable_key = Some key ->
  (forall k request,
      exists response encoded image,
        requests_post k request = Ok response
        /\ first_artifact response = Some encoded
        /\ image_open encoded = Ok image) ->
  (forall k image path, image_save k image path = Ok tt) ->
  forall paths i w,
  exists paths' i' w',
    for_each (frame_image style_prompt negative_prompt total) (paths, i) frames w
    = (Ok (paths', i'), w')
    /\ length paths' = (length paths + length frames)%nat.
Proof.
  intros Hkey Hpost Hsave.
  induction frames as [|frame frames IH]; intros paths i w.
  - exists paths, i, w. simpl. split; [reflexivity | lia].
  - destruct (frame_image_keeps style_prompt negative_prompt total paths i frame w Hsave)
      as (paths1 & w1 & Hrun & Hpaths).
    destruct (Hpost (tick w)
                (image_request key (description frame +:+ ". " +:+ style_prompt)
                   (Some negative_prompt)))
      as (response & encoded & image & Hresp & Hart & Hopen).
    assert (Hread : read_image response = Ok (Some image))
      by (apply read_image_some; eauto).
    assert (Hgen : generate_image (description frame +:+ ". " +:+ style_prompt)
                     (Some negative_prompt) w = (Ok (Some image), after_call w))
      by (now rewrite generate_image_run, Hkey, Hresp, Hread).
    destruct (Hpaths _ _ Hgen) as [path ->].
    destruct (IH (paths ++ [path]) (S i) w1) as (paths' & i' & w' & Hrest & Hlen).
    exists paths', i', w'. simpl for_each. rewrite (bind_ok _ _ _ _ _ Hrun), Hrest.
    split; [reflexivity|]. rewrite Hlen, length_app. simpl. lia.
Qed.

(** X21.  With a usable key, a service that answers every request with a
    usable response whose first artifact decodes, and images that can be
    saved, the batch returns one path for every frame. *)
Theorem batch_one_path_per_frame
    (frames : list FrameDescription) (style_prompt negative_prompt key : string)
    (w : World) :
  usable_key = Some key ->
  (forall k request,
      exists response encoded image,
        requests_post k request = Ok response
        /\ first_artifact response = Some encoded
        /\ image_open encoded = Ok image) ->
  (forall k image path, image_save k image path = Ok tt) ->
  exists paths w',
    generate_frame_images frames style_prompt negative_prompt w = (Ok paths, w')
    /\ length paths = length frames.
Proof.
  intros Hkey Hpost Hsave.
  destruct (batch_loop_all_images style_prompt negative_prompt (length frames) frames key
              Hkey Hpost Hsave [] O w) as (paths & i & w' & Hrun & Hlen).
  exists paths, w'. unfold generate_frame_images.
  rewrite (bind_ok _ _ _ _ _ Hrun). split; [reflexivity | exact Hlen].
Qed.

(** X22.  A failure of [image.save] is not isolated: when the image of a
    frame was made and saving it raises, the batch raises that error at
    once; the paths collected for the frames before it are not returned
    and the frames after it are not tried. *)
Theorem save_failure_aborts_batch
    (style_prompt negative_prompt : string) (pre post : list FrameDescription)
    (frame : FrameDescription) (paths : list string) (i : nat) (w w1 w2 : World)
    (image : Image) (e : exn) :
  for_each (frame_image style_prompt negative_prompt (length (pre ++ frame :: post)))
           ([], O) pre w = (Ok (paths, i), w1) ->
  generate_image (description frame +:+ ". " +:+ style_prompt) (Some negative_prompt) w1
  = (Ok (Some image), w2) ->
  (forall path, image_save (S (tick w2)) image path = Raise e) ->
  generate_frame_images (pre ++ frame :: post) style_prompt negative_prompt w
  = (Raise e, after_call (after_call w2)).
Proof.
  intros Hpre Hgen Hsave. unfold generate_frame_images.
  unfold Mon.bind at 1. rewrite for_each_app, (bind_ok _ _ _ _ _ Hpre).
  simpl for_each. unfold Mon.bind at 1. unfold frame_image at 1.
  rewrite (bind_ok _ _ _ _ _ Hgen).
  destruct (save_image_run image (frame_filename frame) w2) as (path & Hrun & _).
  rewrite Hsave in Hrun. unfold Mon.bind. now rewrite Hrun.
Qed.

End BatchOutcomes.

Section BatchExamples.
Import PyStr ImageGenerationService Spec Notions.

Lemma batch_pauses_between_frames_witness :
  exists paths w',
    generate_frame_images (H := Demo.flaky_images) Demo.five_frames
      "high quality" "blurry" Demo.w0 = (Ok paths, w')
    /\ slept w' = 4%nat.
Proof.
  destruct (batch_pauses_between_frames (H := Demo.flaky_images) Demo.five_frames
              "high quality" "blurry" Demo.w0)
    as (paths & w' & Hrun & Hslept & _).
  - reflexivity.
  - exists paths, w'. split; [exact Hrun | exact Hslept].
Defined.

Lemma batch_without_usable_key_witness :
  generate_frame_images (H := Demo.scripted (Some EmptyString) (fun _ => Raise (OSError "unused")))
    Demo.five_frames "high quality" "blurry" Demo.w0
  = (Ok [], mkWorld 0 4 ∅).
Proof.
  exact (batch_without_usable_key
           (H := Demo.scripted (Some EmptyString) (fun _ => Raise (OSError "unused")))
           Demo.five_frames "high quality" "blurry" Demo.w0 eq_refl).
Defined.

Lemma batch_one_path_per_frame_witness :
  exists paths w',
    generate_frame_images (H := Samples.all_images) Demo.five_frames
      "high quality" "blurry" Demo.w0 = (Ok paths, w')
    /\ length paths = 5%nat.
Proof.
  apply (batch_one_path_per_frame (H := Samples.all_images) Demo.five_frames
           "high quality" "blurry" "sk-key" Demo.w0).
  - reflexivity.
  - intros k request. exists (Demo.image_response "aGVsbG8="), "aGVsbG8=", "aGVsbG8=".
    repeat split.
  - reflexivity.
Defined.

Lemma save_failure_aborts_batch_witness :
  generate_frame_images (H := Samples.full_disk) Demo.five_frames
    "high quality" "blurry" Demo.w0
  = (Raise (OSError "No space left on device"),
     after_call (after_call (after_call Demo.w0))).
Proof.
  apply (save_failure_aborts_batch (H := Samples.full_disk) "high quality" "blurry"
           [] [mkFrame "two" 2; mkFrame "three" 3; mkFrame "four" 4; mkFrame "five" 5]
           (mkFrame "one" 1) [] O Demo.w0 Demo.w0 (after_call Demo.w0) "aGVsbG8=").
  - reflexivity.
  - vm_compute. reflexivity.
  - reflexivity.
Defined.

End BatchExamples.

(* ================================================================== *)
(** * The batch and the images that could not be made *)
(* ================================================================== *)

Section BatchClaim.
Context `{Services}.
Import PyStr ImageGenerationService Spec Notions Batch.







End BatchClaim.

Section BatchClaimExamples.
Import PyStr ImageGenerationService Spec Notions Batch.


End BatchClaimExamples.

(* ================================================================== *)
(** * A draft reply in the strict format *)
(* ================================================================== *)

Section DraftRoundTrip.
Import PyStr LLMService Spec Notions.

Lemma draft_line_strip (st : list FrameDescription * Z) (l1 l2 : string) :
  strip l1 = strip l2 -> draft_line st l1 = draft_line st l2.
Proof. destruct st as [frames k]. unfold draft_line. now intros ->. Qed.

(** The draft pass reads a rendered frame: it keeps the description and
    gives the number of the position. *)
Lemma draft_line_render (frames : list FrameDescription) (k : Z) (f : FrameDescription) :
  strip (description f) = description f ->
  draft_line (frames, k) (render_frame f)
  = Ok (frames ++ [mkFrame (description f) k], k + 1).
Proof.
  intros Hd. destruct (strip_render_frame f Hd) as [Hstrip Hdesc].
  unfold draft_line. rewrite Hstrip.
  set (line := ("Frame " +:+ str_of_int (frame_number f))
               +:+ String ":" (rstrip (String " " (description f)))).
  assert (Hcut : cut ":" line
                 = Some ("Frame " +:+ str_of_int (frame_number f),
                         rstrip (String " " (description f))))
    by apply cut_app, rendered_prefix_no_colon.
  assert (Hacc : accepts line k = true).
  { unfold accepts, line. rewrite append_assoc. reflexivity. }
  rewrite Hacc, cut_contains, Hcut.
  unfold after_colon, split1, last_item. rewrite Hcut. cbn [List.last].
  now rewrite Hdesc.
Qed.

Lemma renumber_length (first : nat) (fs : list FrameDescription) :
  length (renumber first fs) = length fs.
Proof. revert first. induction fs as [|f fs IH]; intros first; simpl; [|rewrite IH]; reflexivity. Qed.

Lemma renumber_descriptions (first : nat) (fs : list FrameDescription) :
  map description (renumber first fs) = map description fs.
Proof. revert first. induction fs as [|f fs IH]; intros first; simpl; [|rewrite IH]; reflexivity. Qed.

Lemma renumber_numbers (first : nat) (fs : list FrameDescription) :
  map frame_number (renumber first fs)
  = map (fun i => Z.of_nat i + 1) (seq first (length fs)).
Proof. revert first. induction fs as [|f fs IH]; intros first; simpl; [|rewrite IH]; reflexivity. Qed.

Lemma draft_loop_rendered (fs : list FrameDescription) :
  well_formatted fs = true ->
  forall (lines : list string) (acc : list FrameDescription),
    map strip lines = map strip (map render_frame fs) ->
    for_each_pure draft_line (acc, Z.of_nat (length acc) + 1) lines
    = Ok (acc ++ renumber (length acc) fs,
          Z.of_nat (length (acc ++ renumber (length acc) fs)) + 1).
Proof.
  induction fs as [|f fs IH]; intros Hwf [|line lines] acc Hlines; try discriminate.
  - simpl. now rewrite app_nil_r.
  - unfold well_formatted in Hwf. simpl forallb in Hwf.
    apply andb_true_iff in Hwf as [Hf Hrest].
    apply andb_true_iff in Hf as [Hd%String.eqb_eq _].
    cbn [map] in Hlines. injection Hlines as Hline Hlines.
    cbn [for_each_pure].
    rewrite (draft_line_strip _ line (render_frame f) Hline), (draft_line_render _ _ f Hd).
    cbn [Res.bind].
    specialize (IH Hrest lines (acc ++ [mkFrame (description f) (Z.of_nat (length acc) + 1)])
                  Hlines).
    rewrite length_app in IH. simpl length in IH.
    replace (Z.of_nat (length acc + 1) + 1) with (Z.of_nat (length acc) + 1 + 1) in IH by lia.
    rewrite IH. rewrite Nat.add_1_r, <- app_assoc. reflexivity.
Qed.

Lemma parse_draft_rendered (fs : list FrameDescription) (reply : string) :
  well_formatted fs = true ->
  strip reply = strip (frames_text fs) ->
  parse_draft reply = Ok (renumber 0 fs).
Proof.
  intros Hwf Hecho. unfold parse_draft. rewrite Hecho.
  destruct fs as [|f fs]; [reflexivity|].
  assert (Hl : lstrip (frames_text (f :: fs)) = frames_text (f :: fs)).
  { unfold frames_text. cbn [map]. destruct (map render_frame fs);
      [reflexivity | now rewrite join_cons by discriminate]. }
  unfold strip. rewrite Hl.
  pose proof (draft_loop_rendered (f :: fs) Hwf
                (split nl (rstrip (frames_text (f :: fs)))) []
                (lines_of_frames_text (f :: fs) ltac:(discriminate) Hwf)) as Hloop.
  change (Z.of_nat (length (@nil FrameDescription)) + 1) with 1 in Hloop.
  rewrite Hloop. reflexivity.
Qed.

(** X23.  A draft reply in the strict format is read back: when the
    reply is the rendering [Frame k: description] of well-formatted
    frames, at least as many as asked for, [generate_frame_sequence]
    returns their descriptions unchanged and in order, numbered by
    position from 1. *)
Theorem generate_reads_strict_format `{Services}
    (text reply : string) (num_frames : Z) (fs : list FrameDescription) (w w' : World) :
  well_formatted fs = true ->
  num_frames <= Z.of_nat (length fs) ->
  call_llm (generate_messages text num_frames) w = (Ok reply, w') ->
  strip reply = strip (frames_text fs) ->
  exists out,
    generate_frame_sequence text num_frames w = (Ok out, w')
    /\ map description out = map description fs
    /\ map frame_number out = one_to (length fs).
Proof.
  intros Hwf Hlen Hcall Hecho. exists (renumber 0 fs).
  rewrite generate_run, Hcall, (parse_draft_rendered fs reply Hwf Hecho).
  rewrite renumber_length.
  destruct (Z.ltb_spec (Z.of_nat (length fs)) num_frames); [lia|].
  split; [reflexivity|]. split; [apply renumber_descriptions | apply renumber_numbers].
Qed.

Lemma generate_reads_strict_format_witness :
  exists out,
    generate_frame_sequence
      (H := Demo.echo (Demo.lines ["Frame 1: a cat sleeps"; "Frame 3: the cat wakes";
                                   "Frame 5: the cat leaves"]))
      "a cat wakes up" 3 Demo.w0 = (Ok out, after_call Demo.w0)
    /\ map description out = ["a cat sleeps"; "the cat wakes"; "the cat leaves"]
    /\ map frame_number out = [1; 2; 3].
Proof.
  apply (generate_reads_strict_format
           (H := Demo.echo (Demo.lines ["Frame 1: a cat sleeps"; "Frame 3: the cat wakes";
                                        "Frame 5: the cat leaves"]))
           "a cat wakes up"
           (Demo.lines ["Frame 1: a cat sleeps"; "Frame 3: the cat wakes";
                        "Frame 5: the cat leaves"])
           3 Demo.frames_135 Demo.w0 (after_call Demo.w0)).
  - reflexivity.
  - simpl. lia.
  - vm_compute. reflexivity.
  - reflexivity.
Defined.

End DraftRoundTrip.
